(** * tab-audio-recorder: the icon generator [icons/generate_icons.py]

    A shallow embedding of the minimal PNG encoder [make_png] and of the three
    icon samplers that call it, followed by the properties of the encoder that
    the specification states.

    Python values are modelled as follows.
    - [int] is [Z] (unbounded).
    - [bytes] is [list byte].
    - [float] is the kernel's binary64 [float]; [math.sqrt], [+], [-], [*], [/]
      and the comparisons are the IEEE-754 operations, as in CPython.
    - an exception is a value of [exn] returned through the [result] monad:
      [bytes([...])] raises [ValueError] on an element outside [range(256)],
      [struct.pack] raises [struct.error] on a field outside its format's range,
      a conversion of an [int] too large for a [float] raises [OverflowError].
      A pixel function is a Python callable, so it returns a [result] too.
    - [zlib.compress] is a parameter of the encoder; [zlib.crc32] is the CRC-32
      of ISO 3309 (the one PNG and zlib use), written out bit by bit. *)

From Stdlib Require Import ZArith List Lia Bool.
From Stdlib Require Import Strings.Byte.
From Stdlib Require Import Floats.PrimFloat Floats.SpecFloat Floats.FloatOps.
From Stdlib Require Strings.String Numbers.DecimalString.
Import String.StringSyntax.
Import ListNotations.
Local Open Scope Z_scope.
Delimit Scope string_scope with string.

(** ** Exceptions *)

Inductive exn : Type :=
| ValueError     (* bytes must be in range(0, 256); math domain error *)
| StructError    (* struct.error: argument out of range *)
| OverflowError. (* int too large to convert to float; float result too large *)

Inductive result (A : Type) : Type :=
| Ok (a : A)
| Raise (e : exn).

Arguments Ok {A} a.
Arguments Raise {A} e.

Definition bind {A B : Type} (c : result A) (k : A -> result B) : result B :=
  match c with
  | Ok a => k a
  | Raise e => Raise e
  end.

Notation "x <- c ;; k" := (bind c (fun x => k))
  (at level 61, c at next level, right associativity).

(** [for x in xs: s = body(s, x)], leaving at the first exception. *)
Fixpoint for_each {A S : Type} (xs : list A) (body : S -> A -> result S) (s : S)
  : result S :=
  match xs with
  | [] => Ok s
  | x :: xs' => s' <- body s x ;; for_each xs' body s'
  end.

(** [range(n)]: empty when [n <= 0]. *)
Definition range (n : Z) : list Z := map Z.of_nat (seq 0 (Z.to_nat n)).

(** ** Bytes *)

Definition Z_of_byte (b : byte) : Z := Z.of_N (Byte.to_N b).

(** The byte whose value is the low eight bits of [z]. *)
Definition low8 (z : Z) : byte :=
  match Byte.of_N (Z.to_N (Z.land z 255)) with
  | Some b => b
  | None => x00
  end.

(** [bytes([z0, z1, ...])] *)
Fixpoint bytes_of_ints (l : list Z) : result (list byte) :=
  match l with
  | [] => Ok []
  | z :: l' =>
      if (0 <=? z) && (z <? 256)
      then bs <- bytes_of_ints l' ;; Ok (low8 z :: bs)
      else Raise ValueError
  end.

Definition byte_eqb (a b : byte) : bool := Z_of_byte a =? Z_of_byte b.

Fixpoint bytes_eqb (a b : list byte) : bool :=
  match a, b with
  | [], [] => true
  | x :: a', y :: b' => byte_eqb x y && bytes_eqb a' b'
  | _, _ => false
  end.

(** ** [struct.pack] *)

(** Four bytes, most significant first. *)
Definition be32 (n : Z) : list byte :=
  [low8 (Z.shiftr n 24); low8 (Z.shiftr n 16); low8 (Z.shiftr n 8); low8 n].

(** Format ['>I']: an unsigned 32-bit integer, big-endian. *)
Definition pack_I (n : Z) : result (list byte) :=
  if (0 <=? n) && (n <? 2 ^ 32) then Ok (be32 n) else Raise StructError.

(** Format ['B']: one byte. *)
Definition pack_B (n : Z) : result (list byte) :=
  if (0 <=? n) && (n <? 256) then Ok [low8 n] else Raise StructError.

(** Format ['>IIBBBBB']. *)
Definition pack_IIBBBBB (a b c d e f g : Z) : result (list byte) :=
  ba <- pack_I a ;;
  bb <- pack_I b ;;
  bc <- pack_B c ;;
  bd <- pack_B d ;;
  be <- pack_B e ;;
  bf <- pack_B f ;;
  bg <- pack_B g ;;
  Ok (ba ++ bb ++ bc ++ bd ++ be ++ bf ++ bg).

(** The unsigned integer a big-endian byte string denotes. *)
Definition be_value (bs : list byte) : Z :=
  fold_left (fun acc b => acc * 256 + Z_of_byte b) bs 0.

(** ** [zlib.crc32] *)

Definition crc32_shift (c : Z) : Z :=
  if Z.testbit c 0
  then Z.lxor (Z.shiftr c 1) 0xEDB88320
  else Z.shiftr c 1.

Definition crc32_update (c : Z) (b : byte) : Z :=
  Nat.iter 8 crc32_shift (Z.lxor c (Z_of_byte b)).

Definition crc32 (data : list byte) : Z :=
  Z.lxor (fold_left crc32_update data 0xFFFFFFFF) 0xFFFFFFFF.

(** ** The encoder *)

(** An [(r, g, b, a)] tuple of Python integers. *)
Definition rgba : Type := (Z * Z * Z * Z)%type.

Definition PNG_SIGNATURE : list byte := [x89; x50; x4e; x47; x0d; x0a; x1a; x0a].
Definition IHDR : list byte := [x49; x48; x44; x52].
Definition IDAT : list byte := [x49; x44; x41; x54].
Definition IEND : list byte := [x49; x45; x4e; x44].

(** [png_chunk(name, data)], lines 15-18. *)
Definition png_chunk (name data : list byte) : result (list byte) :=
  let payload := name ++ data in
  let crc := Z.land (crc32 payload) 0xFFFFFFFF in
  len_b <- pack_I (Z.of_nat (length data)) ;;
  crc_b <- pack_I crc ;;
  Ok (len_b ++ payload ++ crc_b).

(** The body of the inner loop, lines 24-25. *)
Definition append_pixel (pixel_fn : Z -> Z -> result rgba) (y : Z)
    (raw : list byte) (x : Z) : result (list byte) :=
  q <- pixel_fn x y ;;
  let '(r, g, b, a) := q in
  bs <- bytes_of_ints [r; g; b; a] ;;
  Ok (raw ++ bs).

(** The body of the outer loop, lines 22-25. *)
Definition append_row (width : Z) (pixel_fn : Z -> Z -> result rgba)
    (raw : list byte) (y : Z) : result (list byte) :=
  for_each (range width) (append_pixel pixel_fn y) (raw ++ [x00]).

(** The scanline buffer [raw], lines 20-25. *)
Definition build_raw (width height : Z) (pixel_fn : Z -> Z -> result rgba)
  : result (list byte) :=
  for_each (range height) (append_row width pixel_fn) [].

(** The header payload [ihdr], line 28. *)
Definition ihdr_payload (width height : Z) : result (list byte) :=
  pack_IIBBBBB width height 8 6 0 0 0.

Section Encoder.

(** [zlib.compress(_, 9)] *)
Variable compress : list byte -> list byte.

(** [make_png(width, height, pixel_fn)], lines 12-35. *)
Definition make_png (width height : Z) (pixel_fn : Z -> Z -> result rgba)
  : result (list byte) :=
  raw <- build_raw width height pixel_fn ;;
  let compressed := compress raw in
  ihdr <- ihdr_payload width height ;;
  c1 <- png_chunk IHDR ihdr ;;
  c2 <- png_chunk IDAT compressed ;;
  c3 <- png_chunk IEND [] ;;
  Ok (PNG_SIGNATURE ++ c1 ++ c2 ++ c3).

End Encoder.

(** ** A reader for the streams the encoder writes

    The reader a PNG decoder starts with: the signature, then chunks, each with
    its CRC verified, then the header fields, then the inflated image data cut
    into scanlines of filter type 0. Only what 8-bit RGBA images with one IDAT
    chunk need is here. *)

Record image : Type := {
  img_width : Z;
  img_height : Z;
  img_raw : list byte
}.

(** One chunk off the front of [s]: its type, its payload and what follows. *)
Definition read_chunk (s : list byte)
  : option (list byte * list byte * list byte) :=
  let len := be_value (firstn 4 s) in
  if 12 + len <=? Z.of_nat (length s) then
    let n := Z.to_nat len in
    let name := firstn 4 (skipn 4 s) in
    let data := firstn n (skipn 8 s) in
    let crc_b := firstn 4 (skipn (8 + n) s) in
    if be_value crc_b =? crc32 (name ++ data)
    then Some (name, data, skipn (12 + n) s)
    else None
  else None.

(** The seven header fields of a 13-byte IHDR payload. *)
Definition parse_ihdr (p : list byte) : option (Z * Z * Z * Z * Z * Z * Z) :=
  match p with
  | [w0; w1; w2; w3; h0; h1; h2; h3; depth; color; compression; filter; interlace] =>
      Some (be_value [w0; w1; w2; w3], be_value [h0; h1; h2; h3],
            Z_of_byte depth, Z_of_byte color, Z_of_byte compression,
            Z_of_byte filter, Z_of_byte interlace)
  | _ => None
  end.

(** Every scanline of [raw] starts with filter type 0. *)
Definition unfiltered (w h : Z) (raw : list byte) : bool :=
  forallb (fun y => Z_of_byte (nth (Z.to_nat (y * (1 + 4 * w))) raw x01) =? 0)
          (range h).

(** The four channels at column [x] of row [y]. *)
Definition image_pixel (img : image) (x y : Z) : option rgba :=
  if (0 <=? x) && (x <? img_width img) && (0 <=? y) && (y <? img_height img) then
    match skipn (Z.to_nat (y * (1 + 4 * img_width img) + 1 + 4 * x)) (img_raw img) with
    | r :: g :: b :: a :: _ => Some (Z_of_byte r, Z_of_byte g, Z_of_byte b, Z_of_byte a)
    | _ => None
    end
  else None.

Section Decoder.

(** [zlib.decompress] *)
Variable decompress : list byte -> option (list byte).

Definition decode_png (s : list byte) : option image :=
  if bytes_eqb (firstn 8 s) PNG_SIGNATURE then
    match read_chunk (skipn 8 s) with
    | Some (n1, d1, s1) =>
        match read_chunk s1 with
        | Some (n2, d2, s2) =>
            match read_chunk s2 with
            | Some (n3, d3, s3) =>
                if bytes_eqb n1 IHDR && bytes_eqb n2 IDAT && bytes_eqb n3 IEND
                   && bytes_eqb d3 [] && bytes_eqb s3 []
                then
                  match parse_ihdr d1 with
                  | Some (w, h, 8, 6, 0, 0, 0) =>
                      match decompress d2 with
                      | Some raw =>
                          if (Z.of_nat (length raw) =? h * (1 + 4 * w))
                             && unfiltered w h raw
                          then Some {| img_width := w; img_height := h; img_raw := raw |}
                          else None
                      | None => None
                      end
                  | _ => None
                  end
                else None
            | None => None
            end
        | None => None
        end
    | None => None
    end
  else None.

End Decoder.

(** ** A zlib codec with stored blocks

    RFC 1950 wraps a DEFLATE stream (RFC 1951) in a two-byte header and an
    Adler-32 trailer; a DEFLATE stream may consist of stored (uncompressed)
    blocks of at most 65535 bytes. This is the smallest codec that meets what
    the encoder asks of [zlib]: it instantiates the parameters above. *)

Definition adler32_update (s : Z * Z) (b : byte) : Z * Z :=
  let a := (fst s + Z_of_byte b) mod 65521 in
  (a, (snd s + a) mod 65521).

Definition adler32 (data : list byte) : Z :=
  let s := fold_left adler32_update data (1, 0) in
  snd s * 65536 + fst s.

Definition le16 (n : Z) : list byte := [low8 n; low8 (Z.shiftr n 8)].

Definition BLOCK_MAX : Z := 65535.

(** A stored block: BFINAL and BTYPE=00 in the low three bits of the first
    byte, then LEN and its one's complement, then the bytes. *)
Definition stored_block (final : bool) (d : list byte) : list byte :=
  let len := Z.of_nat (length d) in
  (if final then x01 else x00) :: le16 len ++ le16 (BLOCK_MAX - len) ++ d.

Fixpoint stored_blocks (fuel : nat) (d : list byte) : list byte :=
  match fuel with
  | O => stored_block true d
  | S k =>
      if Z.of_nat (length d) <=? BLOCK_MAX
      then stored_block true d
      else stored_block false (firstn (Z.to_nat BLOCK_MAX) d)
           ++ stored_blocks k (skipn (Z.to_nat BLOCK_MAX) d)
  end.

Definition zlib_store (d : list byte) : list byte :=
  [x78; x01] ++ stored_blocks (length d) d ++ be32 (adler32 d).

Fixpoint inflate_stored (fuel : nat) (s : list byte)
  : option (list byte * list byte) :=
  match fuel with
  | O => None
  | S k =>
      match s with
      | hdr :: l0 :: l1 :: n0 :: n1 :: rest =>
          let h := Z_of_byte hdr in
          let len := Z_of_byte l0 + 256 * Z_of_byte l1 in
          let nlen := Z_of_byte n0 + 256 * Z_of_byte n1 in
          if (Z.land (Z.shiftr h 1) 3 =? 0) && (len + nlen =? BLOCK_MAX)
             && (len <=? Z.of_nat (length rest))
          then
            let d := firstn (Z.to_nat len) rest in
            let rest' := skipn (Z.to_nat len) rest in
            if Z.testbit h 0 then Some (d, rest')
            else
              match inflate_stored k rest' with
              | Some (d', r) => Some (d ++ d', r)
              | None => None
              end
          else None
      | _ => None
      end
  end.

Definition zlib_unstore (s : list byte) : option (list byte) :=
  match s with
  | cmf :: flg :: body =>
      if (Z.land (Z_of_byte cmf) 15 =? 8)
         && ((256 * Z_of_byte cmf + Z_of_byte flg) mod 31 =? 0)
         && negb (Z.testbit (Z_of_byte flg) 5)
      then
        match inflate_stored (length body) body with
        | Some (d, trailer) =>
            if (length trailer =? 4)%nat && (be_value trailer =? adler32 d)
            then Some d else None
        | None => None
        end
      else None
  | _ => None
  end.

(** ** Floating point

    Python's [float] is binary64 and so is the kernel's [float]; the
    conversions below are the ones CPython performs. *)

(** The binary64 nearest to [z], ties to even; infinite when [z] is too large. *)
Definition fl (z : Z) : float := SF2Prim (binary_normalize prec emax z 0 false).

(** The implicit conversion of an [int] operand in mixed arithmetic. *)
Definition float_of_int (z : Z) : result float :=
  let f := fl z in
  if is_infinity f then Raise OverflowError else Ok f.

(** [int(f)]: truncation toward zero. *)
Definition int_of_float (f : float) : result Z :=
  match Prim2SF f with
  | S754_zero _ => Ok 0
  | S754_finite s m e =>
      let mag := if 0 <=? e then Z.shiftl (Z.pos m) e else Z.shiftr (Z.pos m) (- e) in
      Ok (if s then - mag else mag)
  | S754_infinity _ => Raise OverflowError
  | S754_nan => Raise ValueError
  end.

(** [a / b] on small integers: the quotient of the two conversions, which is
    the correctly rounded quotient when both fit in 53 bits. *)
Definition truediv (a b : Z) : float := (fl a / fl b)%float.

(** [math.sqrt] *)
Definition math_sqrt (f : float) : result float :=
  if (f <? 0)%float then Raise ValueError else Ok (PrimFloat.sqrt f).

(** [v ** 2]: the C library's [pow(v, 2.0)], taken as the rounded product,
    which it is whenever the square is representable. *)
Definition float_sq (v : float) : result float :=
  let p := (v * v)%float in
  if is_finite v && is_infinity p then Raise OverflowError else Ok p.

(** The exact comparison of a [float] with an [int]; [None] for a NaN. *)
Definition float_cmp_int (f : float) (z : Z) : option comparison :=
  match Prim2SF f with
  | S754_nan => None
  | S754_infinity s => Some (if s then Lt else Gt)
  | S754_zero _ => Some (0 ?= z)
  | S754_finite s m e =>
      let v := if s then Z.neg m else Z.pos m in
      Some (if 0 <=? e then v * 2 ^ e ?= z else v ?= z * 2 ^ (- e))
  end.

(** [f <= z] *)
Definition float_le_int (f : float) (z : Z) : bool :=
  match float_cmp_int f z with
  | Some Lt | Some Eq => true
  | _ => false
  end.

(** [z <= f] *)
Definition int_le_float (z : Z) (f : float) : bool :=
  match float_cmp_int f z with
  | Some Gt | Some Eq => true
  | _ => false
  end.

(** ** The icon samplers *)

Definition SIZE : Z := 48.

(** [circle_aa(cx, cy, r, color, x, y)], lines 38-47, at integer [x], [y]. *)
Definition circle_aa (cx cy r : float) (color : Z * Z * Z) (x y : Z)
  : result rgba :=
  fx <- float_of_int x ;;
  let dx := (fx - cx)%float in
  fy <- float_of_int y ;;
  let dy := (fy - cy)%float in
  dist <- math_sqrt (dx * dx + dy * dy)%float ;;
  let '(cr, cg, cb) := color in
  if (dist <=? r - 0.5)%float then Ok (cr, cg, cb, 255)
  else if (dist <=? r + 0.5)%float then
    alpha <- int_of_float ((r + 0.5 - dist) * fl 255)%float ;;
    Ok (cr, cg, cb, alpha)
  else Ok (0, 0, 0, 0).

(** [make_recording.pixel], lines 106-111. *)
Definition make_recording_pixel (x y : Z) : result rgba :=
  let cx := truediv SIZE 2 in
  let cy := truediv SIZE 2 in
  let r := (truediv SIZE 2 - fl 4)%float in
  let RED := (220, 50, 50) in
  circle_aa cx cy r RED x y.

(** [math.sqrt((x - ax) ** 2 + (y - ay) ** 2)] at integer [x], [y]. *)
Definition distance_to (ax ay : float) (x y : Z) : result float :=
  fx <- float_of_int x ;;
  sx <- float_sq (fx - ax)%float ;;
  fy <- float_of_int y ;;
  sy <- float_sq (fy - ay)%float ;;
  math_sqrt (sx + sy)%float.

(** [make_idle.pixel], lines 52-99. *)
Definition make_idle_pixel (x y : Z) : result rgba :=
  let cx := truediv SIZE 2 in
  let cy := truediv SIZE 2 in
  let GRAY := (130, 130, 140) in
  let body_w := 14 in
  let body_h := 18 in
  let body_x0 := (cx - truediv body_w 2)%float in
  let body_y0 := (cy - truediv body_h 2 - fl 4)%float in
  let body_r := truediv body_w 2 in
  let post_w := 3 in
  let post_h := 8 in
  let post_x0 := (cx - truediv post_w 2)%float in
  let post_y0 := (cy + truediv body_h 2 - fl 4)%float in
  let base_w := 16 in
  let base_h := 3 in
  let base_x0 := (cx - truediv base_w 2)%float in
  let base_y0 := (post_y0 + fl post_h - fl 1)%float in
  let in_body_rect :=
    float_le_int (body_x0 + body_r)%float x
    && int_le_float x (body_x0 + fl body_w - body_r)%float
    && float_le_int body_y0 y && int_le_float y (body_y0 + fl body_h)%float in
  let in_body_full :=
    float_le_int body_x0 x && int_le_float x (body_x0 + fl body_w)%float
    && float_le_int (body_y0 + body_r)%float y
    && int_le_float y (body_y0 + fl body_h - body_r)%float in
  top_dist <- distance_to cx (body_y0 + body_r)%float x y ;;
  let top_circle := (top_dist <=? body_r)%float in
  bot_dist <- distance_to cx (body_y0 + fl body_h - body_r)%float x y ;;
  let bot_circle := (bot_dist <=? body_r)%float in
  let in_body := in_body_rect || in_body_full || top_circle || bot_circle in
  let in_post :=
    float_le_int post_x0 x && int_le_float x (post_x0 + fl post_w)%float
    && float_le_int post_y0 y && int_le_float y (post_y0 + fl post_h)%float in
  let in_base :=
    float_le_int base_x0 x && int_le_float x (base_x0 + fl base_w)%float
    && float_le_int base_y0 y && int_le_float y (base_y0 + fl base_h)%float in
  let arm_r := 11 in
  let arm_cx := cx in
  let arm_cy := post_y0 in
  arm_dist <- distance_to arm_cx arm_cy x y ;;
  let in_arm_ring :=
    (PrimFloat.abs (arm_dist - fl arm_r) <=? 1.5)%float
    && int_le_float y arm_cy
    && float_le_int (arm_cx - fl arm_r - fl 1)%float x
    && int_le_float x (arm_cx + fl arm_r + fl 1)%float in
  if in_body || in_post || in_base || in_arm_ring
  then let '(r, g, b) := GRAY in Ok (r, g, b, 255)
  else Ok (0, 0, 0, 0).

(** [make_paused.rounded_rect], lines 128-132. *)
Definition rounded_rect (x y rx ry rw rh r : Z) : result bool :=
  let dx := Z.max (Z.max (rx - x) 0) (x - (rx + rw)) in
  let dy := Z.max (Z.max (ry - y) 0) (y - (ry + rh)) in
  f <- float_of_int (dx * dx + dy * dy) ;;
  d <- math_sqrt f ;;
  Ok (float_le_int d r).

(** [make_paused.pixel], lines 118-139. *)
Definition make_paused_pixel (x y : Z) : result rgba :=
  let bar_w := 9 in
  let bar_h := 24 in
  let gap := 8 in
  let top := (SIZE - bar_h) / 2 in
  let total_w := bar_w * 2 + gap in
  let left1 := (SIZE - total_w) / 2 in
  let left2 := left1 + bar_w + gap in
  let bar_r := 3 in
  let YELLOW := (230, 190, 40) in
  in_bar1 <- rounded_rect x y left1 top bar_w bar_h bar_r ;;
  in_bar2 <- rounded_rect x y left2 top bar_w bar_h bar_r ;;
  if in_bar1 || in_bar2
  then let '(r, g, b) := YELLOW in Ok (r, g, b, 255)
  else Ok (0, 0, 0, 0).

Section Icons.

Variable compress : list byte -> list byte.

Definition make_idle : result (list byte) :=
  make_png compress SIZE SIZE make_idle_pixel.

Definition make_recording : result (list byte) :=
  make_png compress SIZE SIZE make_recording_pixel.

Definition make_paused : result (list byte) :=
  make_png compress SIZE SIZE make_paused_pixel.

End Icons.

(** ** The scanline buffer as the specification words it

    One filter-type byte 0, then the four channel bytes of each pixel of the
    row, rows top to bottom. [g] gives the quadruple at each coordinate. *)

Definition in_byte (z : Z) : bool := (0 <=? z) && (z <? 256).

Definition channels_ok (q : rgba) : bool :=
  let '(r, g, b, a) := q in in_byte r && in_byte g && in_byte b && in_byte a.

Definition pixel_bytes (q : rgba) : list byte :=
  let '(r, g, b, a) := q in [low8 r; low8 g; low8 b; low8 a].

Definition scanline (w : Z) (g : Z -> Z -> rgba) (y : Z) : list byte :=
  x00 :: flat_map (fun x => pixel_bytes (g x y)) (range w).

Definition scanline_buffer (w h : Z) (g : Z -> Z -> rgba) : list byte :=
  flat_map (scanline w g) (range h).

(** Every coordinate of the [w] by [h] grid has channels in [0, 255]. *)
Definition grid_ok (w h : Z) (g : Z -> Z -> rgba) : bool :=
  forallb (fun y => forallb (fun x => channels_ok (g x y)) (range w)) (range h).

(** The pixel function [f] returns [g x y] at every coordinate of the grid. *)
Definition returns_on (w h : Z) (f : Z -> Z -> result rgba) (g : Z -> Z -> rgba)
  : Prop :=
  forall x y, 0 <= x < w -> 0 <= y < h -> f x y = Ok (g x y).

(** ** The byte stream as the specification words it *)

(** Length, type, payload, CRC-32 of type and payload. *)
Definition serialized_chunk (name data : list byte) : list byte :=
  be32 (Z.of_nat (length data)) ++ name ++ data ++ be32 (crc32 (name ++ data)).

(** Width, height, bit depth 8, colour type 6, and three zero methods. *)
Definition header_fields (w h : Z) : list byte :=
  be32 w ++ be32 h ++ [x08; x06; x00; x00; x00].

(** Signature, IHDR, IDAT, IEND, and nothing else. *)
Definition stream_of (ihdr idat : list byte) : list byte :=
  PNG_SIGNATURE
  ++ serialized_chunk IHDR ihdr
  ++ serialized_chunk IDAT idat
  ++ serialized_chunk IEND [].

Definition png_stream (compress : list byte -> list byte) (w h : Z)
    (g : Z -> Z -> rgba) : list byte :=
  stream_of (header_fields w h) (compress (scanline_buffer w h g)).

(** The IDAT payload of a stream: the payload of its second chunk. *)
Definition idat_of (s : list byte) : option (list byte) :=
  match read_chunk (skipn 8 s) with
  | Some (_, _, s1) =>
      match read_chunk s1 with
      | Some (name, data, _) => if bytes_eqb name IDAT then Some data else None
      | None => None
      end
  | None => None
  end.

(** The four fields of a serialized chunk, read by position: the length, the
    type, the payload, the stored CRC. *)
Definition chunk_fields (c : list byte) : Z * list byte * list byte * Z :=
  let len := be_value (firstn 4 c) in
  (len,
   firstn 4 (skipn 4 c),
   firstn (Z.to_nat len) (skipn 8 c),
   be_value (firstn 4 (skipn (8 + Z.to_nat len) c))).

(** [c] is the serialization of the chunk of type [name] and payload [data]:
    its four fields read back as the payload length, the type, the payload
    and the CRC-32 of type and payload, and it holds nothing more. *)
Definition well_serialized (name data c : list byte) : Prop :=
  c = serialized_chunk name data /\
  chunk_fields c =
    (Z.of_nat (length data), name, data, crc32 (name ++ data)) /\
  length c = (12 + length data)%nat.

(** ** Sample inputs *)

(** The 2 by 1 image of the specification's end-to-end scenario: opaque red,
    then green at alpha 128. *)
Definition sample_pixels (x y : Z) : rgba :=
  if x =? 0 then (255, 0, 0, 255) else (0, 255, 0, 128).

Definition sample_fn (x y : Z) : result rgba := Ok (sample_pixels x y).

(** The same image from a callable that raises outside the 2 by 1 grid. *)
Definition sample_fn_partial (x y : Z) : result rgba :=
  if (0 <=? x) && (x <? 2) && (y =? 0) then Ok (sample_pixels x y)
  else Raise ValueError.

(** A pixel function with a channel of 256 at column 1. *)
Definition overflowing_fn (x y : Z) : result rgba :=
  if x =? 0 then Ok (255, 0, 0, 255) else Ok (0, 256, 0, 128).

(** What a sampler returns at a coordinate, where it returns. *)
Definition value_at (f : Z -> Z -> result rgba) (x y : Z) : rgba :=
  match f x y with
  | Ok q => q
  | Raise _ => (0, 0, 0, 0)
  end.

(** The sampler returns, with channels in [0, 255], on the whole icon. *)
Definition sampler_ok (f : Z -> Z -> result rgba) : bool :=
  forallb (fun y =>
    forallb (fun x =>
      match f x y with
      | Ok q => channels_ok q
      | Raise _ => false
      end) (range SIZE)) (range SIZE).

(** ** The inverse of one CRC step

    The polynomial has bit 31 set and a shifted register has not, so bit 31
    of the result tells which branch [crc32_shift] took. *)
Definition crc32_unshift (r : Z) : Z :=
  if Z.testbit r 31 then 2 * Z.lxor r 0xEDB88320 + 1 else 2 * r.

(** ** The icons in integer arithmetic

    What the three samplers draw, with the floating-point tests replaced by
    tests on integers: [sqrt n <= 7.0] by [n <= 49], [dist <= 19.5] by
    [n <= 380], and the anti-aliased alpha by the floor of the real number
    [(20.5 - sqrt n) * 255]. *)

(** The floor of [(20.5 - sqrt n) * 255] for an integer [n >= 0]: half of
    [10455] minus the ceiling of [510 * sqrt n]. *)
Definition alpha_exact (n : Z) : Z := (10455 - Z.sqrt_up (260100 * n)) / 2.

Definition recording_reference (x y : Z) : rgba :=
  let n := (x - 24) * (x - 24) + (y - 24) * (y - 24) in
  if n <=? 380 then (220, 50, 50, 255)
  else if n <=? 420 then (220, 50, 50, alpha_exact n)
  else (0, 0, 0, 0).

(** Within [r] of the rectangle of corner [(rx, ry)], width [rw], height [rh]. *)
Definition near_rectangle (x y rx ry rw rh r : Z) : bool :=
  let dx := Z.max (Z.max (rx - x) 0) (x - (rx + rw)) in
  let dy := Z.max (Z.max (ry - y) 0) (y - (ry + rh)) in
  dx * dx + dy * dy <=? r * r.

Definition paused_reference (x y : Z) : rgba :=
  if near_rectangle x y 11 12 9 24 3 || near_rectangle x y 28 12 9 24 3
  then (230, 190, 40, 255)
  else (0, 0, 0, 0).

Definition idle_reference (x y : Z) : rgba :=
  let sq a := a * a in
  let in_body_rect := (x =? 24) && (11 <=? y) && (y <=? 29) in
  let in_body_full := (17 <=? x) && (x <=? 31) && (18 <=? y) && (y <=? 22) in
  let top_circle := sq (x - 24) + sq (y - 18) <=? 49 in
  let bot_circle := sq (x - 24) + sq (y - 22) <=? 49 in
  let in_post := (45 <=? 2 * x) && (2 * x <=? 51) && (29 <=? y) && (y <=? 37) in
  let in_base := (16 <=? x) && (x <=? 32) && (36 <=? y) && (y <=? 39) in
  let n := sq (x - 24) + sq (y - 29) in
  let in_arm_ring :=
    (361 <=? 4 * n) && (4 * n <=? 625) && (y <=? 29)
    && (12 <=? x) && (x <=? 36) in
  if in_body_rect || in_body_full || top_circle || bot_circle
     || in_post || in_base || in_arm_ring
  then (130, 130, 140, 255)
  else (0, 0, 0, 0).

Definition rgba_eqb (p q : rgba) : bool :=
  let '(r, g, b, a) := p in
  let '(r', g', b', a') := q in
  (r =? r') && (g =? g') && (b =? b') && (a =? a').

(** [f] returns [q]. *)
Definition returns_eqb (c : result rgba) (q : rgba) : bool :=
  match c with
  | Ok p => rgba_eqb p q
  | Raise _ => false
  end.

(** [P] holds at every coordinate of the icon. *)
Definition on_icon (P : Z -> Z -> bool) : bool :=
  forallb (fun y => forallb (fun x => P x y) (range SIZE)) (range SIZE).

(** [f] returns at [(x, y)], and the same at the mirror image [(mx, my)]. *)
Definition same_pixel (f : Z -> Z -> result rgba) (x y mx my : Z) : bool :=
  match f x y with
  | Ok q => returns_eqb (f mx my) q
  | Raise _ => false
  end.

(** ** The script, lines 144-159

    What running the file does, as the list of its effects in order. The
    directory of the script enters through [path_of], which is
    [os.path.join(script_dir, name)]; [can_open path] tells whether
    [open(path, 'wb')] succeeds, and writing to an open file is taken to
    succeed. *)

Inductive event : Type :=
| Wrote (path : String.string) (data : list byte)
| Printed (line : String.string).

Inductive script_exn : Type :=
| Encoder (e : exn)              (* raised while the icons are generated *)
| OSError (path : String.string). (* raised by [open] *)

(** [f'Created {name} ({len(data)} bytes)'] *)
Definition created_line (name : String.string) (data : list byte)
  : String.string :=
  String.append "Created "%string
    (String.append name
       (String.append " ("%string
          (String.append
             (DecimalString.NilZero.string_of_uint (Nat.to_uint (length data)))
             " bytes)"%string))).

Section Script.

Variable compress : list byte -> list byte.
Variable path_of : String.string -> String.string.
Variable can_open : String.string -> bool.

(** The dictionary [icons], lines 147-151, in insertion order. *)
Definition icons : result (list (String.string * list byte)) :=
  idle <- make_idle compress ;;
  recording <- make_recording compress ;;
  paused <- make_paused compress ;;
  Ok [("idle.png"%string, idle);
      ("recording.png"%string, recording);
      ("paused.png"%string, paused)].

(** One round of the loop, lines 154-157. *)
Definition write_icon (trace : list event) (item : String.string * list byte)
  : list event * option script_exn :=
  let '(name, data) := item in
  let path := path_of name in
  if can_open path
  then (trace ++ [Wrote path data; Printed (created_line name data)], None)
  else (trace, Some (OSError path)).

(** The loop, lines 153-157. *)
Fixpoint write_icons (items : list (String.string * list byte))
    (trace : list event) : list event * option script_exn :=
  match items with
  | [] => (trace, None)
  | item :: rest =>
      match write_icon trace item with
      | (trace', None) => write_icons rest trace'
      | (trace', Some e) => (trace', Some e)
      end
  end.

(** Lines 153-159, once [icons] is evaluated or has raised. *)
Definition write_all (ic : result (list (String.string * list byte)))
  : list event * option script_exn :=
  match ic with
  | Raise e => ([], Some (Encoder e))
  | Ok items =>
      match write_icons items [] with
      | (trace, None) => (trace ++ [Printed "Done."%string], None)
      | (trace, Some e) => (trace, Some e)
      end
  end.

(** The effects of the script and the exception that ends it, if any. *)
Definition main : list event * option script_exn := write_all icons.

(** The effects of one round that goes through. *)
Definition item_events (item : String.string * list byte) : list event :=
  let '(name, data) := item in
  [Wrote (path_of name) data; Printed (created_line name data)].

(** The items before the first one whose file cannot be opened. *)
Fixpoint opened (items : list (String.string * list byte))
  : list (String.string * list byte) :=
  match items with
  | [] => []
  | (name, data) :: rest =>
      if can_open (path_of name) then (name, data) :: opened rest else []
  end.

(** The first path that cannot be opened. *)
Fixpoint first_refused (items : list (String.string * list byte))
  : option String.string :=
  match items with
  | [] => None
  | (name, _) :: rest =>
      if can_open (path_of name) then first_refused rest
      else Some (path_of name)
  end.

(** The compressed buffer of a sampler fits the 4-byte length field. *)
Definition fits (f : Z -> Z -> result rgba) : bool :=
  Z.of_nat (length (compress (scanline_buffer SIZE SIZE (value_at f))))
  <? 2 ^ 32.

(** The stream of a sampler. *)
Definition icon_stream (f : Z -> Z -> result rgba) : list byte :=
  png_stream compress SIZE SIZE (value_at f).

(** What [icons] holds when the three generators return. *)
Definition icon_items : list (String.string * list byte) :=
  [("idle.png"%string, icon_stream make_idle_pixel);
   ("recording.png"%string, icon_stream make_recording_pixel);
   ("paused.png"%string, icon_stream make_paused_pixel)].

End Script.


(** * Properties *)

(** ** The result monad *)

Lemma bind_Ok {A B : Type} (c : result A) (k : A -> result B) (b : B) :
  bind c k = Ok b -> exists a, c = Ok a /\ k a = Ok b.
Proof.
  destruct c as [a | e]; simpl; intro H.
  - exists a. split; [reflexivity | exact H].
  - discriminate H.
Qed.

Ltac inv_bind H :=
  let a := fresh "v" in
  let Ha := fresh "E" in
  apply bind_Ok in H; destruct H as (a & Ha & H).

(** ** Bytes *)

Lemma Z_of_byte_range (b : byte) : 0 <= Z_of_byte b < 256.
Proof.
  unfold Z_of_byte. pose proof (Byte.to_N_bounded b). lia.
Qed.

Lemma land_255_range (z : Z) : 0 <= Z.land z 255 < 256.
Proof.
  change 255 with (Z.ones 8). rewrite Z.land_ones by lia.
  apply Z.mod_pos_bound. lia.
Qed.

Lemma Z_of_byte_low8 (z : Z) : Z_of_byte (low8 z) = Z.land z 255.
Proof.
  unfold low8, Z_of_byte.
  pose proof (land_255_range z) as R.
  destruct (Byte.of_N (Z.to_N (Z.land z 255))) as [b |] eqn:E.
  - apply Byte.to_of_N in E. rewrite E. lia.
  - exfalso.
    pose proof (Byte.to_of_N_option_map (Z.to_N (Z.land z 255))) as M.
    rewrite E in M. simpl in M.
    destruct (N.leb_spec (Z.to_N (Z.land z 255)) 255); [discriminate M | lia].
Qed.

Lemma Z_of_byte_low8_small (z : Z) : 0 <= z < 256 -> Z_of_byte (low8 z) = z.
Proof.
  intro R. rewrite Z_of_byte_low8.
  change 255 with (Z.ones 8). rewrite Z.land_ones by lia.
  apply Z.mod_small. exact R.
Qed.

Lemma Z_of_byte_inj (a b : byte) : Z_of_byte a = Z_of_byte b -> a = b.
Proof.
  unfold Z_of_byte. intro H.
  apply N2Z.inj in H.
  pose proof (Byte.of_to_N a) as Ha. pose proof (Byte.of_to_N b) as Hb.
  rewrite H in Ha. rewrite Ha in Hb. injection Hb. trivial.
Qed.

Lemma byte_eqb_eq (a b : byte) : byte_eqb a b = true <-> a = b.
Proof.
  unfold byte_eqb. rewrite Z.eqb_eq. split.
  - apply Z_of_byte_inj.
  - intros ->. reflexivity.
Qed.

Lemma bytes_eqb_eq (a b : list byte) : bytes_eqb a b = true <-> a = b.
Proof.
  revert b. induction a as [| x a IH]; intros [| y b]; simpl;
    try (split; [discriminate | discriminate]).
  - split; reflexivity.
  - rewrite andb_true_iff, byte_eqb_eq, IH. split.
    + intros [-> ->]. reflexivity.
    + intro H. injection H. auto.
Qed.

Lemma bytes_eqb_refl (a : list byte) : bytes_eqb a a = true.
Proof. apply bytes_eqb_eq. reflexivity. Qed.

(** ** Big-endian fields *)

Lemma be32_length (n : Z) : length (be32 n) = 4%nat.
Proof. reflexivity. Qed.

Lemma be_value_be32 (n : Z) : 0 <= n < 2 ^ 32 -> be_value (be32 n) = n.
Proof.
  intro R. unfold be_value, be32. cbn [fold_left].
  rewrite !Z_of_byte_low8.
  change 255 with (Z.ones 8). rewrite !Z.land_ones by lia.
  rewrite !Z.shiftr_div_pow2 by lia.
  change (2 ^ 24) with 16777216. change (2 ^ 16) with 65536.
  change (2 ^ 8) with 256. change (2 ^ 32) with 4294967296 in R.
  pose proof (Z.div_mod n 256 ltac:(lia)) as D0.
  pose proof (Z.mod_pos_bound n 256 ltac:(lia)) as M0.
  pose proof (Z.div_mod (n / 256) 256 ltac:(lia)) as D1.
  pose proof (Z.mod_pos_bound (n / 256) 256 ltac:(lia)) as M1.
  pose proof (Z.div_mod (n / 256 / 256) 256 ltac:(lia)) as D2.
  pose proof (Z.mod_pos_bound (n / 256 / 256) 256 ltac:(lia)) as M2.
  replace (n / 65536) with (n / 256 / 256)
    by (rewrite Z.div_div by lia; reflexivity).
  replace (n / 16777216) with (n / 256 / 256 / 256)
    by (rewrite !Z.div_div by lia; reflexivity).
  assert (0 <= n / 256 / 256 / 256 < 256) as R3.
  { split.
    - repeat apply Z.div_pos; lia.
    - repeat (apply Z.div_lt_upper_bound; [lia |]). lia. }
  rewrite (Z.mod_small (n / 256 / 256 / 256) 256) by exact R3.
  lia.
Qed.

Lemma pack_I_Ok (n : Z) : 0 <= n < 2 ^ 32 -> pack_I n = Ok (be32 n).
Proof.
  intro R. unfold pack_I.
  destruct (Z.leb_spec 0 n); [| lia].
  destruct (Z.ltb_spec n (2 ^ 32)); [| lia].
  reflexivity.
Qed.

Lemma pack_I_Raise (n : Z) : n < 0 \/ 2 ^ 32 <= n -> pack_I n = Raise StructError.
Proof.
  intro R. unfold pack_I.
  destruct (Z.leb_spec 0 n); destruct (Z.ltb_spec n (2 ^ 32)); simpl;
    try reflexivity; lia.
Qed.

(** ** [zlib.crc32] stays within 32 bits *)

Lemma lxor_range (n a b : Z) :
  0 < n -> 0 <= a < 2 ^ n -> 0 <= b < 2 ^ n -> 0 <= Z.lxor a b < 2 ^ n.
Proof.
  intros Hn Ha Hb.
  assert (0 <= Z.lxor a b) as Hnn by (apply Z.lxor_nonneg; lia).
  split; [exact Hnn |].
  destruct (Z.eq_dec (Z.lxor a b) 0) as [E | NE].
  - rewrite E. apply Z.pow_pos_nonneg; lia.
  - apply Z.log2_lt_pow2; [lia |].
    pose proof (Z.log2_lxor a b ltac:(lia) ltac:(lia)) as L.
    assert (Z.log2 a < n) as La.
    { destruct (Z.eq_dec a 0) as [-> | Na]; [simpl; lia |].
      apply Z.log2_lt_pow2; lia. }
    assert (Z.log2 b < n) as Lb.
    { destruct (Z.eq_dec b 0) as [-> | Nb]; [simpl; lia |].
      apply Z.log2_lt_pow2; lia. }
    lia.
Qed.

Lemma crc32_shift_range (c : Z) :
  0 <= c < 2 ^ 32 -> 0 <= crc32_shift c < 2 ^ 32.
Proof.
  intro R. unfold crc32_shift.
  assert (0 <= Z.shiftr c 1 < 2 ^ 32) as S.
  { rewrite Z.shiftr_div_pow2 by lia. change (2 ^ 1) with 2.
    split; [apply Z.div_pos; lia |].
    apply Z.div_lt_upper_bound; lia. }
  destruct (Z.testbit c 0); [| exact S].
  apply lxor_range; [lia | exact S | lia].
Qed.

Lemma crc32_update_range (c : Z) (b : byte) :
  0 <= c < 2 ^ 32 -> 0 <= crc32_update c b < 2 ^ 32.
Proof.
  intro R. unfold crc32_update.
  assert (0 <= Z.lxor c (Z_of_byte b) < 2 ^ 32) as R0.
  { apply lxor_range; [lia | exact R |].
    pose proof (Z_of_byte_range b). lia. }
  generalize dependent (Z.lxor c (Z_of_byte b)). intros c0 R0.
  cbn [Nat.iter nat_rect].
  repeat apply crc32_shift_range. exact R0.
Qed.

Lemma crc32_range (data : list byte) : 0 <= crc32 data < 2 ^ 32.
Proof.
  unfold crc32.
  assert (forall c, 0 <= c < 2 ^ 32 ->
          0 <= fold_left crc32_update data c < 2 ^ 32) as F.
  { induction data as [| b data IH]; intros c R; simpl.
    - exact R.
    - apply IH. apply crc32_update_range. exact R. }
  apply lxor_range; [lia | apply F; lia | lia].
Qed.

Lemma crc32_mask (data : list byte) :
  Z.land (crc32 data) 0xFFFFFFFF = crc32 data.
Proof.
  change 0xFFFFFFFF with (Z.ones 32). rewrite Z.land_ones by lia.
  apply Z.mod_small. apply crc32_range.
Qed.

(** The check value of the CRC-32 catalogue, on the ASCII digits 1 to 9. *)
Example crc32_check_value :
  crc32 [x31; x32; x33; x34; x35; x36; x37; x38; x39] = 0xCBF43926.
Proof. vm_compute. reflexivity. Qed.

(** ** [png_chunk] *)

(** The IEND chunk of every PNG file: 00 00 00 00 49 45 4E 44 AE 42 60 82. *)
Example png_chunk_IEND :
  png_chunk IEND [] =
  Ok [x00; x00; x00; x00; x49; x45; x4e; x44; xae; x42; x60; x82].
Proof. vm_compute. reflexivity. Qed.

Lemma png_chunk_Ok (name data : list byte) :
  Z.of_nat (length data) < 2 ^ 32 ->
  png_chunk name data =
  Ok (be32 (Z.of_nat (length data)) ++ (name ++ data) ++ be32 (crc32 (name ++ data))).
Proof.
  intro L. unfold png_chunk.
  rewrite crc32_mask.
  rewrite pack_I_Ok by lia. cbn [bind].
  rewrite pack_I_Ok by apply crc32_range. reflexivity.
Qed.

Lemma png_chunk_Raise (name data : list byte) :
  2 ^ 32 <= Z.of_nat (length data) ->
  png_chunk name data = Raise StructError.
Proof.
  intro L. unfold png_chunk.
  rewrite pack_I_Raise by (right; exact L). reflexivity.
Qed.

Lemma png_chunk_inv (name data out : list byte) :
  png_chunk name data = Ok out ->
  Z.of_nat (length data) < 2 ^ 32 /\
  out = be32 (Z.of_nat (length data)) ++ (name ++ data)
        ++ be32 (crc32 (name ++ data)).
Proof.
  intro H.
  destruct (Z.lt_ge_cases (Z.of_nat (length data)) (2 ^ 32)) as [L | L].
  - rewrite png_chunk_Ok in H by exact L. injection H as <-.
    split; [exact L | reflexivity].
  - rewrite png_chunk_Raise in H by exact L. discriminate H.
Qed.

(** ** [range] *)

Lemma range_nonpos (n : Z) : n <= 0 -> range n = [].
Proof.
  intro H. unfold range.
  replace (Z.to_nat n) with 0%nat by lia. reflexivity.
Qed.

Lemma range_length (n : Z) : 0 <= n -> Z.of_nat (length (range n)) = n.
Proof.
  intro H. unfold range. rewrite length_map, length_seq. lia.
Qed.

Lemma in_range (n x : Z) : In x (range n) <-> 0 <= x < n.
Proof.
  unfold range. rewrite in_map_iff. split.
  - intros (k & <- & Hk). apply in_seq in Hk. lia.
  - intro H. exists (Z.to_nat x). split; [lia |].
    apply in_seq. lia.
Qed.

(** [range n] is [range y], then [y], then the rest. *)
Lemma range_split (n y : Z) :
  0 <= y < n -> exists tl, range n = range y ++ y :: tl.
Proof.
  intro H. unfold range.
  replace (Z.to_nat n) with (Z.to_nat y + S (Z.to_nat (n - y - 1)))%nat by lia.
  rewrite seq_app, map_app. cbn [seq map Nat.add].
  rewrite Z2Nat.id by lia.
  eexists. reflexivity.
Qed.

(** ** The loops of [make_png] *)

Lemma in_byte_spec (z : Z) : in_byte z = true <-> 0 <= z < 256.
Proof.
  unfold in_byte. rewrite andb_true_iff, Z.leb_le, Z.ltb_lt. reflexivity.
Qed.

Lemma bytes_of_ints_quad (q : rgba) :
  (let '(r, g, b, a) := q in bytes_of_ints [r; g; b; a]) =
  if channels_ok q then Ok (pixel_bytes q) else Raise ValueError.
Proof.
  destruct q as [[[r g] b] a]. unfold channels_ok, pixel_bytes, in_byte.
  cbn [bytes_of_ints].
  destruct ((0 <=? r) && (r <? 256)); cbn [bind andb]; [| reflexivity].
  destruct ((0 <=? g) && (g <? 256)); cbn [bind andb]; [| reflexivity].
  destruct ((0 <=? b) && (b <? 256)); cbn [bind andb]; [| reflexivity].
  destruct ((0 <=? a) && (a <? 256)); cbn [bind andb]; reflexivity.
Qed.

Lemma append_pixel_eq (f : Z -> Z -> result rgba) (q : rgba)
    (y x : Z) (raw : list byte) :
  f x y = Ok q ->
  append_pixel f y raw x =
  if channels_ok q then Ok (raw ++ pixel_bytes q) else Raise ValueError.
Proof.
  intro E. unfold append_pixel. rewrite E. cbn [bind].
  pose proof (bytes_of_ints_quad q) as B.
  destruct q as [[[r g] b] a].
  rewrite B. destruct (channels_ok (r, g, b, a)); reflexivity.
Qed.

(** The inner loop over any list of columns on which [f] returns. *)
Lemma row_loop_eq (f : Z -> Z -> result rgba) (g : Z -> Z -> rgba) (y : Z)
    (xs : list Z) (raw : list byte) :
  (forall x, In x xs -> f x y = Ok (g x y)) ->
  for_each xs (append_pixel f y) raw =
  if forallb (fun x => channels_ok (g x y)) xs
  then Ok (raw ++ flat_map (fun x => pixel_bytes (g x y)) xs)
  else Raise ValueError.
Proof.
  revert raw. induction xs as [| x xs IH]; intros raw Hf.
  - cbn. rewrite app_nil_r. reflexivity.
  - cbn [for_each forallb flat_map].
    rewrite (append_pixel_eq f (g x y)) by (apply Hf; left; reflexivity).
    destruct (channels_ok (g x y)); cbn [bind andb]; [| reflexivity].
    rewrite IH by (intros x' Hx'; apply Hf; right; exact Hx').
    destruct (forallb _ xs); [| reflexivity].
    rewrite <- app_assoc. reflexivity.
Qed.

Lemma append_row_eq (w h : Z) (f : Z -> Z -> result rgba) (g : Z -> Z -> rgba)
    (y : Z) (raw : list byte) :
  returns_on w h f g -> 0 <= y < h ->
  append_row w f raw y =
  if forallb (fun x => channels_ok (g x y)) (range w)
  then Ok (raw ++ scanline w g y)
  else Raise ValueError.
Proof.
  intros Hf Hy. unfold append_row.
  rewrite (row_loop_eq f g).
  - destruct (forallb _ (range w)); [| reflexivity].
    unfold scanline. rewrite <- app_assoc. reflexivity.
  - intros x Hx. apply Hf; [apply in_range; exact Hx | exact Hy].
Qed.

(** The outer loop over any list of rows of the grid. *)
Lemma rows_loop_eq (w h : Z) (f : Z -> Z -> result rgba) (g : Z -> Z -> rgba)
    (ys : list Z) (raw : list byte) :
  returns_on w h f g -> (forall y, In y ys -> 0 <= y < h) ->
  for_each ys (append_row w f) raw =
  if forallb (fun y => forallb (fun x => channels_ok (g x y)) (range w)) ys
  then Ok (raw ++ flat_map (scanline w g) ys)
  else Raise ValueError.
Proof.
  intros Hf. revert raw. induction ys as [| y ys IH]; intros raw Hys.
  - cbn. rewrite app_nil_r. reflexivity.
  - cbn [for_each forallb flat_map].
    rewrite (append_row_eq w h f g) by (auto; apply Hys; left; reflexivity).
    destruct (forallb _ (range w)); cbn [bind andb]; [| reflexivity].
    rewrite IH by (intros y' Hy'; apply Hys; right; exact Hy').
    destruct (forallb _ ys); [| reflexivity].
    rewrite <- app_assoc. reflexivity.
Qed.

(** What [raw] is after the two loops, when [f] returns on the whole grid. *)
Lemma build_raw_eq (w h : Z) (f : Z -> Z -> result rgba) (g : Z -> Z -> rgba) :
  returns_on w h f g ->
  build_raw w h f =
  if grid_ok w h g then Ok (scanline_buffer w h g) else Raise ValueError.
Proof.
  intro Hf. unfold build_raw.
  rewrite (rows_loop_eq w h f g) by (auto; intros y Hy; apply in_range; exact Hy).
  reflexivity.
Qed.

Lemma grid_ok_spec (w h : Z) (g : Z -> Z -> rgba) :
  grid_ok w h g = true <->
  forall x y, 0 <= x < w -> 0 <= y < h -> channels_ok (g x y) = true.
Proof.
  unfold grid_ok. rewrite forallb_forall. split.
  - intros H x y Hx Hy.
    specialize (H y (proj2 (in_range h y) Hy)).
    rewrite forallb_forall in H. apply H. apply in_range. exact Hx.
  - intros H y Hy. apply forallb_forall. intros x Hx.
    apply H; apply in_range; assumption.
Qed.

(** ** Layout of the scanline buffer *)

Lemma pixel_bytes_length (q : rgba) : length (pixel_bytes q) = 4%nat.
Proof. destruct q as [[[r g] b] a]. reflexivity. Qed.

Lemma flat_map_length_const {A B : Type} (F : A -> list B) (n : nat) (xs : list A) :
  (forall x, length (F x) = n) ->
  length (flat_map F xs) = (length xs * n)%nat.
Proof.
  intro H. induction xs as [| x xs IH]; cbn [flat_map length].
  - reflexivity.
  - rewrite length_app, H, IH. lia.
Qed.

Lemma pixels_length (w : Z) (g : Z -> Z -> rgba) (y : Z) :
  0 <= w ->
  Z.of_nat (length (flat_map (fun x => pixel_bytes (g x y)) (range w))) = 4 * w.
Proof.
  intro Hw.
  rewrite (flat_map_length_const _ 4%nat) by (intro; apply pixel_bytes_length).
  pose proof (range_length w Hw). lia.
Qed.

Lemma scanline_length (w : Z) (g : Z -> Z -> rgba) (y : Z) :
  0 <= w -> Z.of_nat (length (scanline w g y)) = 1 + 4 * w.
Proof.
  intro Hw. unfold scanline. cbn [length].
  pose proof (pixels_length w g y Hw). lia.
Qed.

Lemma scanlines_length (w : Z) (g : Z -> Z -> rgba) (ys : list Z) :
  0 <= w ->
  Z.of_nat (length (flat_map (scanline w g) ys)) =
  Z.of_nat (length ys) * (1 + 4 * w).
Proof.
  intro Hw.
  rewrite (flat_map_length_const _ (Z.to_nat (1 + 4 * w))).
  - lia.
  - intro y. pose proof (scanline_length w g y Hw). lia.
Qed.

Lemma scanline_buffer_length (w h : Z) (g : Z -> Z -> rgba) :
  0 <= w -> 0 <= h ->
  Z.of_nat (length (scanline_buffer w h g)) = h * (1 + 4 * w).
Proof.
  intros Hw Hh. unfold scanline_buffer.
  rewrite scanlines_length by exact Hw.
  rewrite range_length by exact Hh. reflexivity.
Qed.

(** Row [y] starts at offset [y * (1 + 4 * w)]. *)
Lemma buffer_row (w h : Z) (g : Z -> Z -> rgba) (y : Z) :
  0 <= w -> 0 <= y < h ->
  exists pre post,
    scanline_buffer w h g = pre ++ scanline w g y ++ post /\
    Z.of_nat (length pre) = y * (1 + 4 * w).
Proof.
  intros Hw Hy.
  destruct (range_split h y Hy) as (tl & E).
  exists (flat_map (scanline w g) (range y)), (flat_map (scanline w g) tl).
  split.
  - unfold scanline_buffer. rewrite E, flat_map_app. reflexivity.
  - rewrite scanlines_length by exact Hw.
    rewrite range_length by lia. reflexivity.
Qed.

(** Pixel [(x, y)] starts at offset [y * (1 + 4 * w) + 1 + 4 * x]. *)
Lemma buffer_pixel (w h : Z) (g : Z -> Z -> rgba) (x y : Z) :
  0 <= x < w -> 0 <= y < h ->
  exists pre post,
    scanline_buffer w h g = pre ++ pixel_bytes (g x y) ++ post /\
    Z.of_nat (length pre) = y * (1 + 4 * w) + 1 + 4 * x.
Proof.
  intros Hx Hy.
  destruct (buffer_row w h g y ltac:(lia) Hy) as (pre & post & E & L).
  destruct (range_split w x Hx) as (tl & Ex).
  exists (pre ++ x00 :: flat_map (fun x => pixel_bytes (g x y)) (range x)),
         (flat_map (fun x => pixel_bytes (g x y)) tl ++ post).
  split.
  - rewrite E. unfold scanline. rewrite Ex, flat_map_app.
    cbn [flat_map]. rewrite <- !app_assoc. cbn [app].
    rewrite <- !app_assoc. reflexivity.
  - rewrite length_app. cbn [length].
    pose proof (pixels_length x g y ltac:(lia)). lia.
Qed.

Lemma skipn_exact {A : Type} (pre post : list A) (n : nat) :
  length pre = n -> skipn n (pre ++ post) = post.
Proof.
  intros <-. rewrite skipn_app, skipn_all, Nat.sub_diag. reflexivity.
Qed.

Lemma firstn_exact {A : Type} (pre post : list A) (n : nat) :
  length pre = n -> firstn n (pre ++ post) = pre.
Proof.
  intros <-. rewrite firstn_app, firstn_all, Nat.sub_diag, firstn_O.
  apply app_nil_r.
Qed.

Lemma nth_exact {A : Type} (pre post : list A) (a d : A) (n : nat) :
  length pre = n -> nth n (pre ++ a :: post) d = a.
Proof.
  intros <-. rewrite app_nth2 by lia. rewrite Nat.sub_diag. reflexivity.
Qed.

Lemma pixel_bytes_values (q : rgba) :
  channels_ok q = true ->
  map Z_of_byte (pixel_bytes q) =
  let '(r, g, b, a) := q in [r; g; b; a].
Proof.
  destruct q as [[[r g] b] a]. unfold channels_ok.
  rewrite !andb_true_iff, !in_byte_spec. intros [[[Hr Hg] Hb] Ha].
  cbn [pixel_bytes map].
  rewrite !Z_of_byte_low8_small by assumption. reflexivity.
Qed.

(** Reading pixel [(x, y)] back from the buffer. *)
Lemma image_pixel_buffer (w h : Z) (g : Z -> Z -> rgba) (x y : Z) :
  0 <= x < w -> 0 <= y < h -> channels_ok (g x y) = true ->
  image_pixel {| img_width := w; img_height := h;
                 img_raw := scanline_buffer w h g |} x y = Some (g x y).
Proof.
  intros Hx Hy Hok. unfold image_pixel. cbn [img_width img_height img_raw].
  destruct (Z.leb_spec 0 x); [| lia]. destruct (Z.ltb_spec x w); [| lia].
  destruct (Z.leb_spec 0 y); [| lia]. destruct (Z.ltb_spec y h); [| lia].
  cbn [andb].
  destruct (buffer_pixel w h g x y Hx Hy) as (pre & post & E & L).
  rewrite E, skipn_exact by lia.
  pose proof (pixel_bytes_values (g x y) Hok) as V.
  destruct (g x y) as [[[r gg] b] a].
  cbn [pixel_bytes map app] in *.
  injection V as -> -> -> ->. reflexivity.
Qed.

(** Every scanline of the buffer carries filter type 0. *)
Lemma unfiltered_buffer (w h : Z) (g : Z -> Z -> rgba) :
  0 <= w -> unfiltered w h (scanline_buffer w h g) = true.
Proof.
  intro Hw. unfold unfiltered. apply forallb_forall. intros y Hy.
  apply in_range in Hy.
  destruct (buffer_row w h g y Hw Hy) as (pre & post & E & L).
  rewrite E. unfold scanline. cbn [app].
  rewrite nth_exact by lia. reflexivity.
Qed.

(** ** Reading chunks back *)

(** Where the fields of a serialized chunk lie. *)
Lemma serialized_skips (len_b name data crc_b rest : list byte) :
  length len_b = 4%nat -> length name = 4%nat -> length crc_b = 4%nat ->
  let s := len_b ++ name ++ data ++ crc_b ++ rest in
  let n := length data in
  firstn 4 s = len_b /\
  firstn 4 (skipn 4 s) = name /\
  firstn n (skipn 8 s) = data /\
  firstn 4 (skipn (8 + n) s) = crc_b /\
  skipn (12 + n) s = rest /\
  length s = (12 + n + length rest)%nat.
Proof.
  intros Hl Hn Hc s n.
  assert (skipn 4 s = name ++ data ++ crc_b ++ rest) as S4.
  { unfold s. apply skipn_exact. exact Hl. }
  assert (skipn 8 s = data ++ crc_b ++ rest) as S8.
  { change 8%nat with (4 + 4)%nat. rewrite <- skipn_skipn, S4.
    apply skipn_exact. exact Hn. }
  assert (skipn (8 + n) s = crc_b ++ rest) as S8n.
  { replace (8 + n)%nat with (n + 8)%nat by lia.
    rewrite <- skipn_skipn, S8. apply skipn_exact. reflexivity. }
  assert (skipn (12 + n) s = rest) as S12.
  { replace (12 + n)%nat with (4 + (8 + n))%nat by lia.
    rewrite <- skipn_skipn, S8n. apply skipn_exact. exact Hc. }
  rewrite S4, S8, S8n, S12. repeat split.
  - unfold s. apply firstn_exact. exact Hl.
  - apply firstn_exact. exact Hn.
  - apply firstn_exact. reflexivity.
  - apply firstn_exact. exact Hc.
  - unfold s. rewrite !length_app, Hl, Hn, Hc. fold n. lia.
Qed.

(** The serialized form of a chunk, as [png_chunk] returns it. *)
Lemma read_chunk_serialized (name data rest : list byte) :
  length name = 4%nat -> Z.of_nat (length data) < 2 ^ 32 ->
  read_chunk (be32 (Z.of_nat (length data)) ++ (name ++ data)
              ++ be32 (crc32 (name ++ data)) ++ rest)
  = Some (name, data, rest).
Proof.
  intros Hn Hl. rewrite <- (app_assoc name).
  destruct (serialized_skips (be32 (Z.of_nat (length data))) name data
              (be32 (crc32 (name ++ data))) rest
              (be32_length _) Hn (be32_length _))
    as (F4 & N4 & D & C4 & R & L).
  unfold read_chunk.
  rewrite F4, be_value_be32 by lia.
  rewrite Nat2Z.id, L.
  destruct (Z.leb_spec (12 + Z.of_nat (length data))
              (Z.of_nat (12 + length data + length rest))); [| lia].
  rewrite N4, D, C4, R.
  rewrite be_value_be32 by apply crc32_range.
  rewrite Z.eqb_refl. reflexivity.
Qed.

Lemma serialized_chunk_well (name data : list byte) :
  length name = 4%nat -> Z.of_nat (length data) < 2 ^ 32 ->
  well_serialized name data (serialized_chunk name data).
Proof.
  intros Hn Hl. split; [reflexivity |].
  destruct (serialized_skips (be32 (Z.of_nat (length data))) name data
              (be32 (crc32 (name ++ data))) []
              (be32_length _) Hn (be32_length _))
    as (F4 & N4 & D & C4 & R & L).
  rewrite app_nil_r in F4, N4, D, C4, L.
  unfold serialized_chunk, chunk_fields. split.
  - rewrite F4, be_value_be32 by lia.
    rewrite Nat2Z.id, N4, D, C4.
    rewrite be_value_be32 by apply crc32_range. reflexivity.
  - rewrite L. cbn [length]. lia.
Qed.

(** ** The header payload *)

Lemma ihdr_payload_Ok (w h : Z) :
  0 <= w < 2 ^ 32 -> 0 <= h < 2 ^ 32 ->
  ihdr_payload w h = Ok (be32 w ++ be32 h ++ [x08; x06; x00; x00; x00]).
Proof.
  intros Hw Hh. unfold ihdr_payload, pack_IIBBBBB.
  rewrite (pack_I_Ok w Hw), (pack_I_Ok h Hh). cbn [bind].
  reflexivity.
Qed.

Lemma ihdr_payload_Raise (w h : Z) :
  (w < 0 \/ 2 ^ 32 <= w) \/ (h < 0 \/ 2 ^ 32 <= h) ->
  ihdr_payload w h = Raise StructError.
Proof.
  intro H. unfold ihdr_payload, pack_IIBBBBB.
  destruct (Z.lt_ge_cases w 0) as [W0 | W0].
  { rewrite (pack_I_Raise w) by lia. reflexivity. }
  destruct (Z.lt_ge_cases w (2 ^ 32)) as [W1 | W1].
  - rewrite (pack_I_Ok w) by lia. cbn [bind].
    rewrite (pack_I_Raise h) by lia. reflexivity.
  - rewrite (pack_I_Raise w) by lia. reflexivity.
Qed.

Lemma ihdr_payload_inv (w h : Z) (p : list byte) :
  ihdr_payload w h = Ok p ->
  0 <= w < 2 ^ 32 /\ 0 <= h < 2 ^ 32 /\
  p = be32 w ++ be32 h ++ [x08; x06; x00; x00; x00].
Proof.
  intro H.
  destruct (Z.lt_ge_cases w 0); [rewrite ihdr_payload_Raise in H by lia; discriminate H |].
  destruct (Z.lt_ge_cases w (2 ^ 32)); [| rewrite ihdr_payload_Raise in H by lia; discriminate H].
  destruct (Z.lt_ge_cases h 0); [rewrite ihdr_payload_Raise in H by lia; discriminate H |].
  destruct (Z.lt_ge_cases h (2 ^ 32)); [| rewrite ihdr_payload_Raise in H by lia; discriminate H].
  rewrite ihdr_payload_Ok in H by lia. injection H as <-.
  repeat split; lia.
Qed.

Lemma parse_ihdr_payload (w h : Z) :
  0 <= w < 2 ^ 32 -> 0 <= h < 2 ^ 32 ->
  parse_ihdr (be32 w ++ be32 h ++ [x08; x06; x00; x00; x00])
  = Some (w, h, 8, 6, 0, 0, 0).
Proof.
  intros Hw Hh.
  pose proof (be_value_be32 w Hw) as Ew. pose proof (be_value_be32 h Hh) as Eh.
  unfold be32 in *. cbn [app parse_ihdr].
  rewrite Ew, Eh. reflexivity.
Qed.

(** ** [make_png], case by case *)

Section MakePng.

Variable compress : list byte -> list byte.
Variables (w h : Z) (f : Z -> Z -> result rgba) (g : Z -> Z -> rgba).
Hypothesis f_returns : returns_on w h f g.

Lemma make_png_bad_channel :
  grid_ok w h g = false -> make_png compress w h f = Raise ValueError.
Proof.
  intro Hg. unfold make_png.
  rewrite (build_raw_eq w h f g f_returns), Hg. reflexivity.
Qed.

Lemma make_png_bad_dimension :
  grid_ok w h g = true ->
  (w < 0 \/ 2 ^ 32 <= w) \/ (h < 0 \/ 2 ^ 32 <= h) ->
  make_png compress w h f = Raise StructError.
Proof.
  intros Hg Hd. unfold make_png.
  rewrite (build_raw_eq w h f g f_returns), Hg. cbn [bind].
  rewrite ihdr_payload_Raise by exact Hd. reflexivity.
Qed.

Lemma make_png_long_payload :
  grid_ok w h g = true -> 0 <= w < 2 ^ 32 -> 0 <= h < 2 ^ 32 ->
  2 ^ 32 <= Z.of_nat (length (compress (scanline_buffer w h g))) ->
  make_png compress w h f = Raise StructError.
Proof.
  intros Hg Hw Hh Hl. unfold make_png.
  rewrite (build_raw_eq w h f g f_returns), Hg. cbn [bind].
  rewrite ihdr_payload_Ok by assumption. cbn [bind].
  rewrite png_chunk_Ok by (cbn; lia). cbn [bind].
  rewrite png_chunk_Raise by exact Hl. reflexivity.
Qed.

Lemma make_png_Ok :
  grid_ok w h g = true -> 0 <= w < 2 ^ 32 -> 0 <= h < 2 ^ 32 ->
  Z.of_nat (length (compress (scanline_buffer w h g))) < 2 ^ 32 ->
  make_png compress w h f = Ok (png_stream compress w h g).
Proof.
  intros Hg Hw Hh Hl. unfold make_png.
  rewrite (build_raw_eq w h f g f_returns), Hg. cbn [bind].
  rewrite ihdr_payload_Ok by assumption. cbn [bind].
  rewrite png_chunk_Ok by (cbn; lia). cbn [bind].
  rewrite png_chunk_Ok by exact Hl. cbn [bind].
  rewrite png_chunk_Ok by (cbn; lia). cbn [bind].
  unfold png_stream, stream_of, serialized_chunk, header_fields.
  rewrite <- !app_assoc. reflexivity.
Qed.

Lemma make_png_inv (out : list byte) :
  make_png compress w h f = Ok out ->
  grid_ok w h g = true /\ 0 <= w < 2 ^ 32 /\ 0 <= h < 2 ^ 32 /\
  Z.of_nat (length (compress (scanline_buffer w h g))) < 2 ^ 32 /\
  out = png_stream compress w h g.
Proof.
  intro H.
  destruct (grid_ok w h g) eqn:Hg;
    [| rewrite make_png_bad_channel in H by exact Hg; discriminate H].
  assert (0 <= w < 2 ^ 32 /\ 0 <= h < 2 ^ 32) as [Hw Hh].
  { destruct (Z.lt_ge_cases w 0);
      [rewrite make_png_bad_dimension in H by (auto; lia); discriminate H |].
    destruct (Z.lt_ge_cases w (2 ^ 32));
      [| rewrite make_png_bad_dimension in H by (auto; lia); discriminate H].
    destruct (Z.lt_ge_cases h 0);
      [rewrite make_png_bad_dimension in H by (auto; lia); discriminate H |].
    destruct (Z.lt_ge_cases h (2 ^ 32));
      [| rewrite make_png_bad_dimension in H by (auto; lia); discriminate H].
    lia. }
  destruct (Z.lt_ge_cases
              (Z.of_nat (length (compress (scanline_buffer w h g)))) (2 ^ 32))
    as [Hl | Hl];
    [| rewrite make_png_long_payload in H by auto; discriminate H].
  rewrite make_png_Ok in H by auto. injection H as <-.
  repeat split; lia.
Qed.

End MakePng.

(** ** The reader on the streams of the encoder *)

Lemma read_serialized_chunk (name data rest : list byte) :
  length name = 4%nat -> Z.of_nat (length data) < 2 ^ 32 ->
  read_chunk (serialized_chunk name data ++ rest) = Some (name, data, rest).
Proof.
  intros Hn Hl. unfold serialized_chunk.
  rewrite <- (read_chunk_serialized name data rest Hn Hl).
  rewrite <- !app_assoc. reflexivity.
Qed.

Lemma header_fields_length (w h : Z) : length (header_fields w h) = 13%nat.
Proof. reflexivity. Qed.

Section Reader.

Variable compress : list byte -> list byte.
Variable decompress : list byte -> option (list byte).
Hypothesis decompress_compress : forall d, decompress (compress d) = Some d.

Lemma decode_png_stream (w h : Z) (g : Z -> Z -> rgba) :
  0 <= w < 2 ^ 32 -> 0 <= h < 2 ^ 32 ->
  Z.of_nat (length (compress (scanline_buffer w h g))) < 2 ^ 32 ->
  decode_png decompress (png_stream compress w h g) =
  Some {| img_width := w; img_height := h;
          img_raw := scanline_buffer w h g |}.
Proof.
  intros Hw Hh Hl. unfold decode_png, png_stream, stream_of.
  rewrite (firstn_exact PNG_SIGNATURE) by reflexivity.
  rewrite bytes_eqb_refl.
  rewrite (skipn_exact PNG_SIGNATURE) by reflexivity.
  rewrite <- (app_nil_r (serialized_chunk IEND [])).
  rewrite read_serialized_chunk
    by (try reflexivity; rewrite header_fields_length; cbn; lia).
  rewrite read_serialized_chunk by (try reflexivity; exact Hl).
  rewrite read_serialized_chunk by (try reflexivity; cbn; lia).
  rewrite !bytes_eqb_refl. cbn [andb].
  unfold header_fields. rewrite parse_ihdr_payload by assumption.
  rewrite decompress_compress.
  rewrite scanline_buffer_length by lia.
  rewrite Z.eqb_refl, unfiltered_buffer by lia.
  reflexivity.
Qed.

(** Decoding what [make_png] returned gives the image it was asked for. *)
Lemma decode_make_png (w h : Z) (f : Z -> Z -> result rgba)
    (g : Z -> Z -> rgba) (out : list byte) :
  returns_on w h f g -> make_png compress w h f = Ok out ->
  exists img,
    decode_png decompress out = Some img /\
    img_width img = w /\ img_height img = h /\
    img_raw img = scanline_buffer w h g /\
    forall x y, 0 <= x < w -> 0 <= y < h ->
                image_pixel img x y = Some (g x y).
Proof.
  intros Hf H.
  destruct (make_png_inv compress w h f g Hf out H)
    as (Hg & Bw & Bh & L & ->).
  eexists. split; [apply decode_png_stream; assumption |].
  cbn [img_width img_height img_raw].
  refine (conj eq_refl (conj eq_refl (conj eq_refl _))).
  intros x y Hx Hy. apply image_pixel_buffer; try assumption.
  apply (proj1 (grid_ok_spec w h g) Hg); assumption.
Qed.

End Reader.

(** ** The stored-block codec inverts itself *)

Lemma le16_value (n : Z) :
  0 <= n < 65536 ->
  Z.land n 255 + 256 * Z.land (Z.shiftr n 8) 255 = n.
Proof.
  intro R. change 255 with (Z.ones 8). rewrite !Z.land_ones by lia.
  rewrite Z.shiftr_div_pow2 by lia. change (2 ^ 8) with 256.
  assert (0 <= n / 256 < 256) as Q.
  { split; [apply Z.div_pos; lia | apply Z.div_lt_upper_bound; lia]. }
  rewrite (Z.mod_small (n / 256)) by exact Q.
  pose proof (Z.div_mod n 256 ltac:(lia)). lia.
Qed.

Lemma inflate_stored_block (k : nat) (final : bool) (d tail : list byte) :
  Z.of_nat (length d) <= BLOCK_MAX ->
  inflate_stored (S k) (stored_block final d ++ tail) =
  if final then Some (d, tail)
  else match inflate_stored k tail with
       | Some (d', r) => Some (d ++ d', r)
       | None => None
       end.
Proof.
  intro L. unfold stored_block, le16. cbn [app inflate_stored].
  rewrite !Z_of_byte_low8.
  rewrite !le16_value by (unfold BLOCK_MAX in *; lia).
  replace (Z.of_nat (length d) + (BLOCK_MAX - Z.of_nat (length d)))
    with BLOCK_MAX by lia.
  rewrite Z.eqb_refl, length_app.
  destruct (Z.leb_spec (Z.of_nat (length d))
              (Z.of_nat (length d + length tail))); [| lia].
  rewrite Nat2Z.id.
  rewrite (firstn_exact d) by reflexivity.
  rewrite (skipn_exact d) by reflexivity.
  destruct final; reflexivity.
Qed.

Lemma inflate_stored_blocks (fuel : nat) :
  forall (d tail : list byte) (k : nat),
    (length d <= fuel)%nat -> (fuel < k)%nat ->
    inflate_stored k (stored_blocks fuel d ++ tail) = Some (d, tail).
Proof.
  induction fuel as [| fuel IH]; intros d tail k Hd Hk;
    destruct k as [| k]; try lia.
  - cbn [stored_blocks].
    rewrite inflate_stored_block by (unfold BLOCK_MAX; lia). reflexivity.
  - cbn [stored_blocks].
    destruct (Z.leb_spec (Z.of_nat (length d)) BLOCK_MAX) as [S | S].
    + rewrite inflate_stored_block by exact S. reflexivity.
    + rewrite <- app_assoc.
      rewrite inflate_stored_block
        by (rewrite length_firstn; unfold BLOCK_MAX in *; lia).
      rewrite IH.
      * rewrite firstn_skipn. reflexivity.
      * rewrite length_skipn. unfold BLOCK_MAX in *. lia.
      * lia.
Qed.

Lemma stored_blocks_length (fuel : nat) :
  forall d : list byte, (length d + 5 <= length (stored_blocks fuel d))%nat.
Proof.
  induction fuel as [| fuel IH]; intro d; cbn [stored_blocks].
  - unfold stored_block, le16. cbn [length app]. lia.
  - destruct (Z.leb_spec (Z.of_nat (length d)) BLOCK_MAX) as [S | S].
    + unfold stored_block, le16. cbn [length app]. lia.
    + rewrite length_app.
      specialize (IH (skipn (Z.to_nat BLOCK_MAX) d)).
      rewrite length_skipn in IH.
      unfold stored_block at 1. unfold le16. cbn [length app].
      rewrite length_firstn. unfold BLOCK_MAX in *. lia.
Qed.

Lemma adler32_range (d : list byte) : 0 <= adler32 d < 2 ^ 32.
Proof.
  unfold adler32.
  assert (forall s, 0 <= fst s < 65521 -> 0 <= snd s < 65521 ->
          0 <= fst (fold_left adler32_update d s) < 65521 /\
          0 <= snd (fold_left adler32_update d s) < 65521) as F.
  { induction d as [| b d IH]; intros s Ha Hb; cbn [fold_left].
    - split; assumption.
    - apply IH; unfold adler32_update; cbn [fst snd];
        apply Z.mod_pos_bound; lia. }
  destruct (F (1, 0)) as [Ha Hb]; cbn [fst snd]; try lia.
Qed.

(** Adler-32 of the ASCII string Wikipedia, the usual worked example. *)
Example adler32_check_value :
  adler32 [x57; x69; x6b; x69; x70; x65; x64; x69; x61] = 0x11E60398.
Proof. vm_compute. reflexivity. Qed.

(** [zlib_unstore] undoes [zlib_store]. *)
Lemma zlib_unstore_store (d : list byte) : zlib_unstore (zlib_store d) = Some d.
Proof.
  unfold zlib_store, zlib_unstore. cbn [app].
  change (Z.land (Z_of_byte x78) 15 =? 8) with true.
  change ((256 * Z_of_byte x78 + Z_of_byte x01) mod 31 =? 0) with true.
  change (Z.testbit (Z_of_byte x01) 5) with false.
  cbn [andb negb].
  rewrite inflate_stored_blocks.
  - rewrite be32_length, Nat.eqb_refl.
    rewrite be_value_be32 by apply adler32_range.
    rewrite Z.eqb_refl. reflexivity.
  - lia.
  - rewrite length_app, be32_length.
    pose proof (stored_blocks_length (length d) d). lia.
Qed.

(** * The claims *)

(** ** Scanline assembly *)

(** C5. For every width [w > 0], height [h > 0] and pixel function returning
    channels in [0, 255] on the grid, the buffer [raw] that [make_png] builds
    before compression is, row after row from [0] to [h - 1], one filter byte
    0 followed by the red, green, blue and alpha bytes of each pixel from
    column [0] to [w - 1]; its length is [h * (1 + 4 * w)]. *)
Theorem scanline_assembly (w h : Z) (f : Z -> Z -> result rgba)
    (g : Z -> Z -> rgba) :
  0 < w -> 0 < h -> returns_on w h f g ->
  (forall x y, 0 <= x < w -> 0 <= y < h -> channels_ok (g x y) = true) ->
  build_raw w h f = Ok (scanline_buffer w h g) /\
  Z.of_nat (length (scanline_buffer w h g)) = h * (1 + 4 * w) /\
  (forall y, 0 <= y < h ->
     nth (Z.to_nat (y * (1 + 4 * w))) (scanline_buffer w h g) x01 = x00) /\
  (forall x y, 0 <= x < w -> 0 <= y < h ->
     map Z_of_byte
       (firstn 4 (skipn (Z.to_nat (y * (1 + 4 * w) + 1 + 4 * x))
                        (scanline_buffer w h g)))
     = let '(r, g, b, a) := g x y in [r; g; b; a]).
Proof.
  intros Hw Hh Hf Hok. repeat split.
  - rewrite (build_raw_eq w h f g Hf).
    rewrite (proj2 (grid_ok_spec w h g) Hok). reflexivity.
  - apply scanline_buffer_length; lia.
  - intros y Hy.
    destruct (buffer_row w h g y ltac:(lia) Hy) as (pre & post & E & L).
    rewrite E. unfold scanline. cbn [app]. apply nth_exact. lia.
  - intros x y Hx Hy.
    destruct (buffer_pixel w h g x y Hx Hy) as (pre & post & E & L).
    rewrite E, skipn_exact by lia.
    rewrite firstn_exact by apply pixel_bytes_length.
    apply pixel_bytes_values. apply Hok; assumption.
Qed.

Lemma sample_pixels_ok (x y : Z) : channels_ok (sample_pixels x y) = true.
Proof. unfold sample_pixels. destruct (x =? 0); reflexivity. Qed.

Lemma sample_fn_returns (w h : Z) : returns_on w h sample_fn sample_pixels.
Proof. intros x y _ _. reflexivity. Qed.

Lemma scanline_assembly_witness :
  build_raw 2 1 sample_fn = Ok (scanline_buffer 2 1 sample_pixels) /\
  Z.of_nat (length (scanline_buffer 2 1 sample_pixels)) = 1 * (1 + 4 * 2) /\
  (forall y, 0 <= y < 1 ->
     nth (Z.to_nat (y * (1 + 4 * 2))) (scanline_buffer 2 1 sample_pixels) x01
     = x00) /\
  (forall x y, 0 <= x < 2 -> 0 <= y < 1 ->
     map Z_of_byte
       (firstn 4 (skipn (Z.to_nat (y * (1 + 4 * 2) + 1 + 4 * x))
                        (scanline_buffer 2 1 sample_pixels)))
     = let '(r, g, b, a) := sample_pixels x y in [r; g; b; a]).
Proof.
  apply (scanline_assembly 2 1 sample_fn sample_pixels).
  - lia.
  - lia.
  - apply sample_fn_returns.
  - intros x y _ _. apply sample_pixels_ok.
Defined.

(** ** Determinism *)

Lemma for_each_ext {A S : Type} (xs : list A) (body1 body2 : S -> A -> result S) :
  (forall s x, In x xs -> body1 s x = body2 s x) ->
  forall s, for_each xs body1 s = for_each xs body2 s.
Proof.
  induction xs as [| x xs IH]; intros H s; cbn [for_each].
  - reflexivity.
  - rewrite (H s x) by (left; reflexivity).
    destruct (body2 s x) as [s' | e]; cbn [bind]; [| reflexivity].
    apply IH. intros s0 x0 Hx0. apply H. right. exact Hx0.
Qed.

Lemma build_raw_ext (w h : Z) (f1 f2 : Z -> Z -> result rgba) :
  (forall x y, 0 <= x < w -> 0 <= y < h -> f1 x y = f2 x y) ->
  build_raw w h f1 = build_raw w h f2.
Proof.
  intro H. unfold build_raw. apply for_each_ext.
  intros raw y Hy. unfold append_row. apply for_each_ext.
  intros raw' x Hx. unfold append_pixel.
  rewrite H by (apply in_range; assumption). reflexivity.
Qed.

(** C6. [make_png] is a function of its inputs alone: two calls with the same
    width and height, and with pixel functions that give the same result at
    every valid coordinate, return the same bytes (or raise the same
    exception). Nothing outside the grid is consulted. *)
Theorem make_png_deterministic (compress : list byte -> list byte) (w h : Z)
    (f1 f2 : Z -> Z -> result rgba) :
  (forall x y, 0 <= x < w -> 0 <= y < h -> f1 x y = f2 x y) ->
  make_png compress w h f1 = make_png compress w h f2.
Proof.
  intro H. unfold make_png. rewrite (build_raw_ext w h f1 f2 H). reflexivity.
Qed.

Lemma make_png_deterministic_witness :
  make_png zlib_store 2 1 sample_fn = make_png zlib_store 2 1 sample_fn_partial.
Proof.
  apply (make_png_deterministic zlib_store 2 1 sample_fn sample_fn_partial).
  intros x y Hx Hy. unfold sample_fn, sample_fn_partial.
  destruct (Z.leb_spec 0 x); [| lia].
  destruct (Z.ltb_spec x 2); [| lia].
  destruct (Z.eqb_spec y 0); [| lia].
  reflexivity.
Defined.

(** ** Out-of-range channels *)

Lemma for_each_Ok_inv {A S : Type} (xs : list A) (body : S -> A -> result S) :
  forall s s', for_each xs body s = Ok s' ->
  forall x, In x xs -> exists s0 s1, body s0 x = Ok s1.
Proof.
  induction xs as [| x0 xs IH]; intros s s' H x Hx.
  - destruct Hx.
  - cbn [for_each] in H. inv_bind H.
    destruct Hx as [<- | Hx].
    + exists s, v. exact E.
    + apply (IH v s' H x Hx).
Qed.

Lemma append_pixel_Ok_inv (f : Z -> Z -> result rgba) (y x : Z)
    (raw raw' : list byte) :
  append_pixel f y raw x = Ok raw' ->
  exists q, f x y = Ok q /\ channels_ok q = true.
Proof.
  unfold append_pixel. intro H. inv_bind H.
  exists v. split; [exact E |].
  pose proof (bytes_of_ints_quad v) as B.
  destruct v as [[[r g] b] a]. rewrite B in H.
  destruct (channels_ok (r, g, b, a)); [reflexivity | discriminate H].
Qed.

(** When the loops finish, every pixel of the grid was returned and had its
    four channels in [0, 255]. *)
Lemma build_raw_Ok_inv (w h : Z) (f : Z -> Z -> result rgba) (raw : list byte) :
  build_raw w h f = Ok raw ->
  forall x y, 0 <= x < w -> 0 <= y < h ->
  exists q, f x y = Ok q /\ channels_ok q = true.
Proof.
  unfold build_raw. intros H x y Hx Hy.
  destruct (for_each_Ok_inv _ _ _ _ H y (proj2 (in_range h y) Hy))
    as (s0 & s1 & Hrow).
  unfold append_row in Hrow.
  destruct (for_each_Ok_inv _ _ _ _ Hrow x (proj2 (in_range w x) Hx))
    as (r0 & r1 & Hpix).
  apply (append_pixel_Ok_inv f y x r0 r1 Hpix).
Qed.

Lemma make_png_raises_with_build_raw (compress : list byte -> list byte)
    (w h : Z) (f : Z -> Z -> result rgba) (e : exn) :
  build_raw w h f = Raise e -> make_png compress w h f = Raise e.
Proof. intro H. unfold make_png. rewrite H. reflexivity. Qed.

(** C8. For every width [w > 0] and height [h > 0], if the pixel function
    returns at some valid coordinate a quadruple with an integer outside
    [0, 255], then [make_png] raises and returns no bytes; when the pixel
    function returns at every valid coordinate the exception is the
    [ValueError] of the per-pixel [bytes([r, g, b, a])]. No value is reduced
    modulo 256 into an output. *)
Theorem out_of_range_channel_raises (compress : list byte -> list byte)
    (w h : Z) (f : Z -> Z -> result rgba) (x y : Z) (q : rgba) :
  0 < w -> 0 < h -> 0 <= x < w -> 0 <= y < h ->
  f x y = Ok q -> channels_ok q = false ->
  (exists e, build_raw w h f = Raise e /\ make_png compress w h f = Raise e) /\
  (forall out, make_png compress w h f <> Ok out) /\
  (forall g, returns_on w h f g -> make_png compress w h f = Raise ValueError).
Proof.
  intros Hw Hh Hx Hy Hq Hbad.
  assert (exists e, build_raw w h f = Raise e) as (e & He).
  { destruct (build_raw w h f) as [raw | e] eqn:B; [| exists e; reflexivity].
    destruct (build_raw_Ok_inv w h f raw B x y Hx Hy) as (q' & Hq' & Hok).
    rewrite Hq in Hq'. injection Hq' as <-. congruence. }
  pose proof (make_png_raises_with_build_raw compress w h f e He) as Hm.
  repeat split.
  - exists e. split; assumption.
  - intros out Hout. rewrite Hm in Hout. discriminate Hout.
  - intros g Hg. apply (make_png_bad_channel compress w h f g Hg).
    destruct (grid_ok w h g) eqn:G; [| reflexivity].
    pose proof (proj1 (grid_ok_spec w h g) G x y Hx Hy) as Hok.
    rewrite (Hg x y Hx Hy) in Hq. injection Hq as <-. congruence.
Qed.

Lemma out_of_range_channel_raises_witness :
  (exists e, build_raw 2 1 overflowing_fn = Raise e /\
             make_png zlib_store 2 1 overflowing_fn = Raise e) /\
  (forall out, make_png zlib_store 2 1 overflowing_fn <> Ok out) /\
  (forall g, returns_on 2 1 overflowing_fn g ->
             make_png zlib_store 2 1 overflowing_fn = Raise ValueError).
Proof.
  apply (out_of_range_channel_raises zlib_store 2 1 overflowing_fn 1 0
           (0, 256, 0, 128)).
  - lia.
  - lia.
  - lia.
  - lia.
  - reflexivity.
  - reflexivity.
Defined.

(** ** What a returned stream is made of *)

Lemma png_chunk_serialized (name data c : list byte) :
  png_chunk name data = Ok c ->
  Z.of_nat (length data) < 2 ^ 32 /\ c = serialized_chunk name data.
Proof.
  intro H. apply png_chunk_inv in H. destruct H as [L ->].
  split; [exact L |]. unfold serialized_chunk.
  rewrite <- app_assoc. reflexivity.
Qed.

Lemma png_chunk_serialized_Ok (name data : list byte) :
  Z.of_nat (length data) < 2 ^ 32 ->
  png_chunk name data = Ok (serialized_chunk name data).
Proof.
  intro L. rewrite png_chunk_Ok by exact L. unfold serialized_chunk.
  rewrite <- app_assoc. reflexivity.
Qed.

(** Whatever the pixel function, a stream that [make_png] returns was put
    together from a finished buffer and three chunks. *)
Lemma make_png_parts (compress : list byte -> list byte) (w h : Z)
    (f : Z -> Z -> result rgba) (out : list byte) :
  make_png compress w h f = Ok out ->
  exists raw,
    build_raw w h f = Ok raw /\
    0 <= w < 2 ^ 32 /\ 0 <= h < 2 ^ 32 /\
    Z.of_nat (length (compress raw)) < 2 ^ 32 /\
    out = stream_of (header_fields w h) (compress raw).
Proof.
  unfold make_png. intro H.
  inv_bind H. rename v into raw, E into Hraw.
  inv_bind H. rename v into ihdr, E into Hihdr.
  inv_bind H. rename v into c1, E into H1.
  inv_bind H. rename v into c2, E into H2.
  inv_bind H. rename v into c3, E into H3.
  injection H as <-.
  apply ihdr_payload_inv in Hihdr. destruct Hihdr as (Hw & Hh & ->).
  apply png_chunk_serialized in H1. destruct H1 as [_ ->].
  apply png_chunk_serialized in H2. destruct H2 as [L2 ->].
  apply png_chunk_serialized in H3. destruct H3 as [_ ->].
  exists raw. repeat split; try lia; try assumption.
Qed.

(** ** Chunk serialization *)

(** C2. Every chunk that [make_png] emits (IHDR, IDAT, and IEND with its
    empty payload) is serialized as the 4-byte big-endian length of the
    payload, the 4-byte type, the payload, and the 4-byte big-endian CRC-32
    of type and payload together: read back by position, the stored CRC field
    is [crc32 (type ++ payload)]. *)
Theorem chunk_serialization (compress : list byte -> list byte) (w h : Z)
    (f : Z -> Z -> result rgba) (out : list byte) :
  make_png compress w h f = Ok out ->
  exists ihdr idat c1 c2 c3,
    out = PNG_SIGNATURE ++ c1 ++ c2 ++ c3 /\
    png_chunk IHDR ihdr = Ok c1 /\
    png_chunk IDAT idat = Ok c2 /\
    png_chunk IEND [] = Ok c3 /\
    well_serialized IHDR ihdr c1 /\
    well_serialized IDAT idat c2 /\
    well_serialized IEND [] c3.
Proof.
  intro H.
  destruct (make_png_parts compress w h f out H)
    as (raw & _ & Hw & Hh & L & ->).
  exists (header_fields w h), (compress raw),
         (serialized_chunk IHDR (header_fields w h)),
         (serialized_chunk IDAT (compress raw)),
         (serialized_chunk IEND []).
  assert (Z.of_nat (length (header_fields w h)) < 2 ^ 32) as L1
    by (rewrite header_fields_length; cbn; lia).
  assert (Z.of_nat (length (@nil byte)) < 2 ^ 32) as L3 by (cbn; lia).
  refine (conj _ (conj _ (conj _ (conj _ (conj _ (conj _ _)))))).
  - reflexivity.
  - apply png_chunk_serialized_Ok. exact L1.
  - apply png_chunk_serialized_Ok. exact L.
  - apply png_chunk_serialized_Ok. exact L3.
  - apply serialized_chunk_well; [reflexivity | exact L1].
  - apply serialized_chunk_well; [reflexivity | exact L].
  - apply serialized_chunk_well; [reflexivity | exact L3].
Qed.

Lemma sample_stream_Ok :
  make_png zlib_store 2 1 sample_fn = Ok (png_stream zlib_store 2 1 sample_pixels).
Proof. vm_compute. reflexivity. Qed.

Lemma chunk_serialization_witness :
  exists ihdr idat c1 c2 c3,
    png_stream zlib_store 2 1 sample_pixels = PNG_SIGNATURE ++ c1 ++ c2 ++ c3 /\
    png_chunk IHDR ihdr = Ok c1 /\
    png_chunk IDAT idat = Ok c2 /\
    png_chunk IEND [] = Ok c3 /\
    well_serialized IHDR ihdr c1 /\
    well_serialized IDAT idat c2 /\
    well_serialized IEND [] c3.
Proof.
  apply (chunk_serialization zlib_store 2 1 sample_fn).
  vm_compute. reflexivity.
Defined.

(** ** The whole stream *)

(** C3, amended. For every width [0 < w < 2^32], height [0 < h < 2^32] and
    pixel function returning channels in [0, 255] on the grid, when the
    compressed buffer is shorter than [2^32] bytes, [make_png] returns exactly
    the 8-byte signature followed by the serialized IHDR, IDAT and IEND
    chunks, in this order and with nothing before, between or after; the
    output begins with the signature. *)
Theorem stream_structure (compress : list byte -> list byte) (w h : Z)
    (f : Z -> Z -> result rgba) (g : Z -> Z -> rgba) :
  0 < w < 2 ^ 32 -> 0 < h < 2 ^ 32 -> returns_on w h f g ->
  (forall x y, 0 <= x < w -> 0 <= y < h -> channels_ok (g x y) = true) ->
  Z.of_nat (length (compress (scanline_buffer w h g))) < 2 ^ 32 ->
  exists c1 c2 c3,
    make_png compress w h f = Ok (PNG_SIGNATURE ++ c1 ++ c2 ++ c3) /\
    png_chunk IHDR (header_fields w h) = Ok c1 /\
    png_chunk IDAT (compress (scanline_buffer w h g)) = Ok c2 /\
    png_chunk IEND [] = Ok c3 /\
    firstn 8 (PNG_SIGNATURE ++ c1 ++ c2 ++ c3) =
      [x89; x50; x4e; x47; x0d; x0a; x1a; x0a].
Proof.
  intros Hw Hh Hf Hok L.
  exists (serialized_chunk IHDR (header_fields w h)),
         (serialized_chunk IDAT (compress (scanline_buffer w h g))),
         (serialized_chunk IEND []).
  repeat apply conj.
  - apply (make_png_Ok compress w h f g Hf); try lia.
    apply grid_ok_spec. exact Hok.
  - apply png_chunk_serialized_Ok. rewrite header_fields_length. cbn. lia.
  - apply png_chunk_serialized_Ok. exact L.
  - apply png_chunk_serialized_Ok. cbn. lia.
  - reflexivity.
Qed.

Lemma stream_structure_witness :
  exists c1 c2 c3,
    make_png zlib_store 2 1 sample_fn = Ok (PNG_SIGNATURE ++ c1 ++ c2 ++ c3) /\
    png_chunk IHDR (header_fields 2 1) = Ok c1 /\
    png_chunk IDAT (zlib_store (scanline_buffer 2 1 sample_pixels)) = Ok c2 /\
    png_chunk IEND [] = Ok c3 /\
    firstn 8 (PNG_SIGNATURE ++ c1 ++ c2 ++ c3) =
      [x89; x50; x4e; x47; x0d; x0a; x1a; x0a].
Proof.
  apply (stream_structure zlib_store 2 1 sample_fn sample_pixels).
  - lia.
  - lia.
  - apply sample_fn_returns.
  - intros x y _ _. apply sample_pixels_ok.
  - vm_compute. reflexivity.
Defined.

(** A width of [2^32] does not fit the header: with a valid pixel function
    and positive dimensions [make_png] raises [struct.error]. *)
Lemma stream_structure_counterexample :
  0 < 4294967296 /\ 0 < 1 /\
  returns_on 4294967296 1 sample_fn sample_pixels /\
  (forall x y, channels_ok (sample_pixels x y) = true) /\
  make_png zlib_store 4294967296 1 sample_fn = Raise StructError.
Proof.
  repeat apply conj; try lia.
  - apply sample_fn_returns.
  - apply sample_pixels_ok.
  - apply (make_png_bad_dimension zlib_store 4294967296 1 sample_fn sample_pixels).
    + apply sample_fn_returns.
    + apply grid_ok_spec. intros x y _ _. apply sample_pixels_ok.
    + left. right. lia.
Qed.

(** ** The header *)

Lemma read_stream_header (ihdr idat : list byte) :
  Z.of_nat (length ihdr) < 2 ^ 32 ->
  exists rest,
    read_chunk (skipn 8 (stream_of ihdr idat)) = Some (IHDR, ihdr, rest).
Proof.
  intro L. unfold stream_of.
  rewrite (skipn_exact PNG_SIGNATURE) by reflexivity.
  eexists. apply read_serialized_chunk; [reflexivity | exact L].
Qed.

(** C4, amended. For every width [0 < w < 2^32] and height [0 < h < 2^32],
    the IHDR payload that [make_png] builds has 13 bytes: [w] and [h] as
    4-byte big-endian integers, then bit depth 8, colour type 6, compression
    method 0, filter method 0 and interlace method 0; parsing it gives back
    [w], [h], 8 and 6, and it is the payload of the first chunk of every
    stream that [make_png] returns for these dimensions. *)
Theorem header_contents (w h : Z) :
  0 < w < 2 ^ 32 -> 0 < h < 2 ^ 32 ->
  ihdr_payload w h = Ok (header_fields w h) /\
  length (header_fields w h) = 13%nat /\
  header_fields w h = be32 w ++ be32 h ++ [x08; x06; x00; x00; x00] /\
  be_value (be32 w) = w /\ be_value (be32 h) = h /\
  parse_ihdr (header_fields w h) = Some (w, h, 8, 6, 0, 0, 0) /\
  (forall compress f out,
     make_png compress w h f = Ok out ->
     exists rest,
       read_chunk (skipn 8 out) = Some (IHDR, header_fields w h, rest)).
Proof.
  intros Hw Hh.
  refine (conj _ (conj _ (conj _ (conj _ (conj _ (conj _ _)))))).
  - apply ihdr_payload_Ok; lia.
  - reflexivity.
  - reflexivity.
  - apply be_value_be32. lia.
  - apply be_value_be32. lia.
  - apply parse_ihdr_payload; lia.
  - intros compress f out H.
    destruct (make_png_parts compress w h f out H) as (raw & _ & _ & _ & _ & ->).
    apply read_stream_header. rewrite header_fields_length. cbn. lia.
Qed.

Lemma header_contents_witness :
  ihdr_payload 48 48 = Ok (header_fields 48 48) /\
  length (header_fields 48 48) = 13%nat /\
  header_fields 48 48 = be32 48 ++ be32 48 ++ [x08; x06; x00; x00; x00] /\
  be_value (be32 48) = 48 /\ be_value (be32 48) = 48 /\
  parse_ihdr (header_fields 48 48) = Some (48, 48, 8, 6, 0, 0, 0) /\
  (forall compress f out,
     make_png compress 48 48 f = Ok out ->
     exists rest,
       read_chunk (skipn 8 out) = Some (IHDR, header_fields 48 48, rest)).
Proof.
  apply (header_contents 48 48); lia.
Defined.

(** A height of [2^32] has no 4-byte packing: [struct.pack] raises, and so
    does [make_png], for the positive dimensions [1] and [2^32]. *)
Lemma header_contents_counterexample :
  0 < 1 /\ 0 < 4294967296 /\
  ihdr_payload 1 4294967296 = Raise StructError /\
  make_png zlib_store 1 4294967296 sample_fn = Raise StructError.
Proof.
  repeat apply conj; try lia.
  - reflexivity.
  - apply (make_png_bad_dimension zlib_store 1 4294967296 sample_fn sample_pixels).
    + apply sample_fn_returns.
    + apply grid_ok_spec. intros x y _ _. apply sample_pixels_ok.
    + right. right. lia.
Qed.

(** ** Degenerate dimensions *)

Lemma no_pixels_returns (w h : Z) (f : Z -> Z -> result rgba) :
  w = 0 \/ h = 0 -> returns_on w h f (fun _ _ => (0, 0, 0, 0)).
Proof. intros H x y Hx Hy. lia. Qed.

Lemma empty_grid_ok (w h : Z) (g : Z -> Z -> rgba) :
  w = 0 \/ h = 0 -> grid_ok w h g = true.
Proof. intro H. apply grid_ok_spec. intros x y Hx Hy. lia. Qed.

Lemma flat_map_singleton {A B : Type} (b : B) (xs : list A) :
  flat_map (fun _ => [b]) xs = repeat b (length xs).
Proof.
  induction xs as [| x xs IH]; cbn [flat_map length repeat app].
  - reflexivity.
  - rewrite IH. reflexivity.
Qed.

(** With no column or no row, the buffer is one filter byte per row. *)
Lemma empty_scanline_buffer (w h : Z) (g : Z -> Z -> rgba) :
  w = 0 \/ h = 0 -> scanline_buffer w h g = repeat x00 (Z.to_nat h).
Proof.
  intros [-> | ->].
  - unfold scanline_buffer, scanline. cbn [range Z.to_nat seq map flat_map].
    rewrite (flat_map_singleton x00).
    unfold range. rewrite length_map, length_seq. reflexivity.
  - reflexivity.
Qed.

(** C9, amended. [make_png] does not validate its dimensions: for width 0 or
    height 0, the other dimension being in [[0, 2^32)] and the compressed
    buffer shorter than [2^32] bytes, it does not fail. It returns the
    signature followed by IHDR, IDAT and IEND, where the IHDR payload records
    the given dimensions and the IDAT payload is the compression of the
    buffer: empty when the height is 0, one filter byte 0 per row when the
    width is 0. The pixel function is not called. *)
Theorem degenerate_dimensions (compress : list byte -> list byte) (w h : Z)
    (f : Z -> Z -> result rgba) :
  w = 0 \/ h = 0 -> 0 <= w < 2 ^ 32 -> 0 <= h < 2 ^ 32 ->
  Z.of_nat (length (compress (repeat x00 (Z.to_nat h)))) < 2 ^ 32 ->
  build_raw w h f = Ok (repeat x00 (Z.to_nat h)) /\
  (h = 0 -> repeat x00 (Z.to_nat h) = []) /\
  ihdr_payload w h = Ok (header_fields w h) /\
  parse_ihdr (header_fields w h) = Some (w, h, 8, 6, 0, 0, 0) /\
  make_png compress w h f =
    Ok (PNG_SIGNATURE
        ++ serialized_chunk IHDR (header_fields w h)
        ++ serialized_chunk IDAT (compress (repeat x00 (Z.to_nat h)))
        ++ serialized_chunk IEND []).
Proof.
  intros Hz Hw Hh L.
  pose proof (no_pixels_returns w h f Hz) as Hf.
  pose proof (empty_grid_ok w h (fun _ _ => (0, 0, 0, 0)) Hz) as Hg.
  pose proof (empty_scanline_buffer w h (fun _ _ => (0, 0, 0, 0)) Hz) as Hb.
  refine (conj _ (conj _ (conj _ (conj _ _)))).
  - rewrite (build_raw_eq w h f _ Hf), Hg, Hb. reflexivity.
  - intros ->. reflexivity.
  - apply ihdr_payload_Ok; assumption.
  - apply parse_ihdr_payload; assumption.
  - rewrite (make_png_Ok compress w h f _ Hf Hg Hw Hh)
      by (rewrite Hb; exact L).
    unfold png_stream, stream_of. rewrite Hb. reflexivity.
Qed.

Lemma degenerate_dimensions_witness :
  build_raw 0 3 overflowing_fn = Ok (repeat x00 (Z.to_nat 3)) /\
  (3 = 0 -> repeat x00 (Z.to_nat 3) = []) /\
  ihdr_payload 0 3 = Ok (header_fields 0 3) /\
  parse_ihdr (header_fields 0 3) = Some (0, 3, 8, 6, 0, 0, 0) /\
  make_png zlib_store 0 3 overflowing_fn =
    Ok (PNG_SIGNATURE
        ++ serialized_chunk IHDR (header_fields 0 3)
        ++ serialized_chunk IDAT (zlib_store (repeat x00 (Z.to_nat 3)))
        ++ serialized_chunk IEND []).
Proof.
  apply (degenerate_dimensions zlib_store 0 3 overflowing_fn).
  - left. reflexivity.
  - lia.
  - lia.
  - vm_compute. reflexivity.
Defined.

(** Height 0 with a width of [2^32]: no pixel is sampled, and packing the
    header raises [struct.error]. *)
Lemma degenerate_dimensions_counterexample :
  make_png zlib_store 4294967296 0 sample_fn = Raise StructError.
Proof. vm_compute. reflexivity. Qed.

(** ** Round trip *)

Lemma idat_of_stream (ihdr idat : list byte) :
  Z.of_nat (length ihdr) < 2 ^ 32 -> Z.of_nat (length idat) < 2 ^ 32 ->
  idat_of (stream_of ihdr idat) = Some idat.
Proof.
  intros L1 L2. unfold idat_of, stream_of.
  rewrite (skipn_exact PNG_SIGNATURE) by reflexivity.
  rewrite read_serialized_chunk by (try reflexivity; exact L1).
  rewrite read_serialized_chunk by (try reflexivity; exact L2).
  rewrite bytes_eqb_refl. reflexivity.
Qed.

Section RoundTrip.

Variable compress : list byte -> list byte.
Variable decompress : list byte -> option (list byte).
Hypothesis decompress_compress : forall d, decompress (compress d) = Some d.

(** C1. For every width [w > 0], height [h > 0] and pixel function returning
    channels in [0, 255] on the grid: the buffer is built, decompressing its
    compression gives it back, and for every stream [make_png] returns, the
    IDAT payload is that compression and decoding the stream gives a [w] by
    [h] image whose pixel at every [(x, y)] is the quadruple the pixel
    function returned there. A stream is returned whenever the dimensions and
    the compressed length fit their 4-byte fields. *)
Theorem round_trip_fidelity (w h : Z) (f : Z -> Z -> result rgba)
    (g : Z -> Z -> rgba) :
  0 < w -> 0 < h -> returns_on w h f g ->
  (forall x y, 0 <= x < w -> 0 <= y < h -> channels_ok (g x y) = true) ->
  build_raw w h f = Ok (scanline_buffer w h g) /\
  decompress (compress (scanline_buffer w h g)) = Some (scanline_buffer w h g) /\
  (w < 2 ^ 32 -> h < 2 ^ 32 ->
   Z.of_nat (length (compress (scanline_buffer w h g))) < 2 ^ 32 ->
   exists out, make_png compress w h f = Ok out) /\
  (forall out, make_png compress w h f = Ok out ->
     idat_of out = Some (compress (scanline_buffer w h g)) /\
     exists img,
       decode_png decompress out = Some img /\
       img_width img = w /\ img_height img = h /\
       img_raw img = scanline_buffer w h g /\
       forall x y, 0 <= x < w -> 0 <= y < h ->
                   image_pixel img x y = Some (g x y)).
Proof.
  intros Hw Hh Hf Hok.
  pose proof (proj2 (grid_ok_spec w h g) Hok) as Hg.
  refine (conj _ (conj _ (conj _ _))).
  - rewrite (build_raw_eq w h f g Hf), Hg. reflexivity.
  - apply decompress_compress.
  - intros Bw Bh L. eexists.
    apply (make_png_Ok compress w h f g Hf Hg); lia.
  - intros out H. split.
    + destruct (make_png_inv compress w h f g Hf out H)
        as (_ & Bw & Bh & L & ->).
      apply idat_of_stream; [rewrite header_fields_length; cbn; lia | exact L].
    + apply (decode_make_png compress decompress decompress_compress
               w h f g out Hf H).
Qed.

End RoundTrip.

Lemma round_trip_fidelity_witness :
  build_raw 2 1 sample_fn = Ok (scanline_buffer 2 1 sample_pixels) /\
  zlib_unstore (zlib_store (scanline_buffer 2 1 sample_pixels))
    = Some (scanline_buffer 2 1 sample_pixels) /\
  (2 < 2 ^ 32 -> 1 < 2 ^ 32 ->
   Z.of_nat (length (zlib_store (scanline_buffer 2 1 sample_pixels))) < 2 ^ 32 ->
   exists out, make_png zlib_store 2 1 sample_fn = Ok out) /\
  (forall out, make_png zlib_store 2 1 sample_fn = Ok out ->
     idat_of out = Some (zlib_store (scanline_buffer 2 1 sample_pixels)) /\
     exists img,
       decode_png zlib_unstore out = Some img /\
       img_width img = 2 /\ img_height img = 1 /\
       img_raw img = scanline_buffer 2 1 sample_pixels /\
       forall x y, 0 <= x < 2 -> 0 <= y < 1 ->
                   image_pixel img x y = Some (sample_pixels x y)).
Proof.
  apply (round_trip_fidelity zlib_store zlib_unstore zlib_unstore_store
           2 1 sample_fn sample_pixels).
  - lia.
  - lia.
  - apply sample_fn_returns.
  - intros x y _ _. apply sample_pixels_ok.
Defined.

(** ** The icon samplers *)

Lemma sampler_ok_spec (f : Z -> Z -> result rgba) :
  sampler_ok f = true ->
  forall x y, 0 <= x < SIZE -> 0 <= y < SIZE ->
  exists q, f x y = Ok q /\ channels_ok q = true.
Proof.
  unfold sampler_ok. intros H x y Hx Hy.
  rewrite forallb_forall in H.
  specialize (H y (proj2 (in_range SIZE y) Hy)).
  rewrite forallb_forall in H.
  specialize (H x (proj2 (in_range SIZE x) Hx)).
  destruct (f x y) as [q | e]; [| discriminate H].
  exists q. split; [reflexivity | exact H].
Qed.

Lemma sampler_returns (f : Z -> Z -> result rgba) :
  sampler_ok f = true -> returns_on SIZE SIZE f (value_at f).
Proof.
  intros H x y Hx Hy.
  destruct (sampler_ok_spec f H x y Hx Hy) as (q & E & _).
  unfold value_at. rewrite E. reflexivity.
Qed.

Lemma sampler_grid_ok (f : Z -> Z -> result rgba) :
  sampler_ok f = true -> grid_ok SIZE SIZE (value_at f) = true.
Proof.
  intro H. apply grid_ok_spec. intros x y Hx Hy.
  destruct (sampler_ok_spec f H x y Hx Hy) as (q & E & Hq).
  unfold value_at. rewrite E. exact Hq.
Qed.

Lemma idle_sampler_ok : sampler_ok make_idle_pixel = true.
Proof. vm_compute. reflexivity. Qed.

Lemma recording_sampler_ok : sampler_ok make_recording_pixel = true.
Proof. vm_compute. reflexivity. Qed.

Lemma paused_sampler_ok : sampler_ok make_paused_pixel = true.
Proof. vm_compute. reflexivity. Qed.

Lemma make_idle_eq (compress : list byte -> list byte) :
  make_idle compress = make_png compress SIZE SIZE make_idle_pixel.
Proof. reflexivity. Qed.

Lemma make_recording_eq (compress : list byte -> list byte) :
  make_recording compress = make_png compress SIZE SIZE make_recording_pixel.
Proof. reflexivity. Qed.

Lemma make_paused_eq (compress : list byte -> list byte) :
  make_paused compress = make_png compress SIZE SIZE make_paused_pixel.
Proof. reflexivity. Qed.

(** An icon generator never takes the [ValueError] branch of the encoder. *)
Lemma icon_never_ValueError (compress : list byte -> list byte)
    (f : Z -> Z -> result rgba) :
  sampler_ok f = true ->
  build_raw SIZE SIZE f = Ok (scanline_buffer SIZE SIZE (value_at f)) /\
  make_png compress SIZE SIZE f <> Raise ValueError.
Proof.
  intro H.
  pose proof (sampler_returns f H) as Hf.
  pose proof (sampler_grid_ok f H) as Hg.
  split.
  - rewrite (build_raw_eq SIZE SIZE f _ Hf), Hg. reflexivity.
  - destruct (Z.lt_ge_cases
                (Z.of_nat (length (compress
                   (scanline_buffer SIZE SIZE (value_at f))))) (2 ^ 32))
      as [L | L].
    + rewrite (make_png_Ok compress SIZE SIZE f _ Hf Hg)
        by (unfold SIZE; lia || exact L).
      discriminate.
    + rewrite (make_png_long_payload compress SIZE SIZE f _ Hf Hg)
        by (unfold SIZE; lia || exact L).
      discriminate.
Qed.

(** C10. Each of the three pixel functions of [make_idle], [make_recording]
    and [make_paused] returns, at every coordinate of the 48 by 48 icon, a
    quadruple of integers each in [0, 255], the anti-aliased alpha of
    [circle_aa] included; so the buffer of each icon is built and no icon
    generator raises the encoder's [ValueError]. *)
Theorem icon_samplers_in_range (x y : Z) :
  0 <= x < 48 -> 0 <= y < 48 ->
  (forall f,
     In f [make_idle_pixel; make_recording_pixel; make_paused_pixel] ->
     (exists r g b a,
        f x y = Ok (r, g, b, a) /\
        0 <= r <= 255 /\ 0 <= g <= 255 /\ 0 <= b <= 255 /\ 0 <= a <= 255) /\
     exists raw, build_raw SIZE SIZE f = Ok raw) /\
  (forall compress,
     make_idle compress <> Raise ValueError /\
     make_recording compress <> Raise ValueError /\
     make_paused compress <> Raise ValueError).
Proof.
  intros Hx Hy.
  assert (forall f, sampler_ok f = true ->
          (exists r g b a,
             f x y = Ok (r, g, b, a) /\
             0 <= r <= 255 /\ 0 <= g <= 255 /\ 0 <= b <= 255 /\ 0 <= a <= 255)
          /\ exists raw, build_raw SIZE SIZE f = Ok raw) as P.
  { intros f H. split.
    - destruct (sampler_ok_spec f H x y Hx Hy) as ([[[r g] b] a] & E & Hq).
      exists r, g, b, a. split; [exact E |].
      unfold channels_ok in Hq.
      rewrite !andb_true_iff, !in_byte_spec in Hq. lia.
    - eexists. apply (icon_never_ValueError (fun d => d) f H). }
  split.
  - intros f [<- | [<- | [<- | []]]].
    + apply P, idle_sampler_ok.
    + apply P, recording_sampler_ok.
    + apply P, paused_sampler_ok.
  - intro compress.
    rewrite make_idle_eq, make_recording_eq, make_paused_eq.
    repeat split.
    + apply icon_never_ValueError, idle_sampler_ok.
    + apply icon_never_ValueError, recording_sampler_ok.
    + apply icon_never_ValueError, paused_sampler_ok.
Qed.

Lemma icon_samplers_in_range_witness :
  (forall f,
     In f [make_idle_pixel; make_recording_pixel; make_paused_pixel] ->
     (exists r g b a,
        f 5 18 = Ok (r, g, b, a) /\
        0 <= r <= 255 /\ 0 <= g <= 255 /\ 0 <= b <= 255 /\ 0 <= a <= 255) /\
     exists raw, build_raw SIZE SIZE f = Ok raw) /\
  (forall compress,
     make_idle compress <> Raise ValueError /\
     make_recording compress <> Raise ValueError /\
     make_paused compress <> Raise ValueError).
Proof.
  apply (icon_samplers_in_range 5 18); lia.
Defined.

(** ** The recording icon *)

Lemma recording_corner : make_recording_pixel 0 0 = Ok (0, 0, 0, 0).
Proof. vm_compute. reflexivity. Qed.

Lemma recording_center : make_recording_pixel 24 24 = Ok (220, 50, 50, 255).
Proof. vm_compute. reflexivity. Qed.

Lemma recording_value_corner : value_at make_recording_pixel 0 0 = (0, 0, 0, 0).
Proof. unfold value_at. rewrite recording_corner. reflexivity. Qed.

Lemma recording_value_center :
  value_at make_recording_pixel 24 24 = (220, 50, 50, 255).
Proof. unfold value_at. rewrite recording_center. reflexivity. Qed.

Section RecordingIcon.

Variable compress : list byte -> list byte.
Variable decompress : list byte -> option (list byte).
Hypothesis decompress_compress : forall d, decompress (compress d) = Some d.

(** C7. The pixel function of [make_recording] (a red disc of radius 20
    centred at (24, 24), anti-aliased at its edge) returns the transparent
    quadruple (0, 0, 0, 0) at (0, 0) and the opaque red (220, 50, 50, 255) at
    (24, 24); hence every PNG that [make_recording] produces decodes to a 48 by
    48 image that is transparent at the corner and opaque red at the centre.
    A PNG is produced whenever the compressed buffer fits the 4-byte length
    field. *)
Theorem recording_icon_scenario :
  make_recording_pixel 0 0 = Ok (0, 0, 0, 0) /\
  make_recording_pixel 24 24 = Ok (220, 50, 50, 255) /\
  (Z.of_nat (length (compress
     (scanline_buffer SIZE SIZE (value_at make_recording_pixel)))) < 2 ^ 32 ->
   exists out, make_recording compress = Ok out) /\
  (forall out, make_recording compress = Ok out ->
     exists img,
       decode_png decompress out = Some img /\
       img_width img = 48 /\ img_height img = 48 /\
       image_pixel img 0 0 = Some (0, 0, 0, 0) /\
       image_pixel img 24 24 = Some (220, 50, 50, 255)).
Proof.
  pose proof (sampler_returns _ recording_sampler_ok) as Hf.
  pose proof (sampler_grid_ok _ recording_sampler_ok) as Hg.
  refine (conj recording_corner (conj recording_center (conj _ _))).
  - intro L. eexists. rewrite make_recording_eq.
    apply (make_png_Ok compress SIZE SIZE _ _ Hf Hg);
      [unfold SIZE; lia | unfold SIZE; lia | exact L].
  - intros out H. rewrite make_recording_eq in H.
    destruct (decode_make_png compress decompress decompress_compress
                SIZE SIZE _ _ out Hf H) as (img & D & W & H' & _ & P).
    exists img.
    refine (conj D (conj W (conj H' (conj _ _)))).
    + rewrite (P 0 0) by (unfold SIZE; lia).
      rewrite recording_value_corner. reflexivity.
    + rewrite (P 24 24) by (unfold SIZE; lia).
      rewrite recording_value_center. reflexivity.
Qed.

End RecordingIcon.

Lemma recording_icon_scenario_witness :
  make_recording_pixel 0 0 = Ok (0, 0, 0, 0) /\
  make_recording_pixel 24 24 = Ok (220, 50, 50, 255) /\
  (Z.of_nat (length (zlib_store
     (scanline_buffer SIZE SIZE (value_at make_recording_pixel)))) < 2 ^ 32 ->
   exists out, make_recording zlib_store = Ok out) /\
  (forall out, make_recording zlib_store = Ok out ->
     exists img,
       decode_png zlib_unstore out = Some img /\
       img_width img = 48 /\ img_height img = 48 /\
       image_pixel img 0 0 = Some (0, 0, 0, 0) /\
       image_pixel img 24 24 = Some (220, 50, 50, 255)).
Proof.
  apply (recording_icon_scenario zlib_store zlib_unstore zlib_unstore_store).
Defined.

(** * Further properties of the encoder *)

(** ** Outcomes of [png_chunk] and [make_png] *)

(** X7. [png_chunk] raises [struct.error] exactly when the payload has [2^32]
    bytes or more, and returns otherwise; what it returns, for a type of any
    length, is the length field, the type, the payload and the CRC field, 8
    bytes longer than type and payload together. *)
Theorem png_chunk_outcome (name data : list byte) :
  (png_chunk name data = Raise StructError <->
   2 ^ 32 <= Z.of_nat (length data)) /\
  ((exists out, png_chunk name data = Ok out) <->
   Z.of_nat (length data) < 2 ^ 32) /\
  (forall out, png_chunk name data = Ok out ->
     out = be32 (Z.of_nat (length data)) ++ name ++ data
           ++ be32 (crc32 (name ++ data)) /\
     length out = (8 + length name + length data)%nat).
Proof.
  destruct (Z.lt_ge_cases (Z.of_nat (length data)) (2 ^ 32)) as [L | L].
  - rewrite png_chunk_serialized_Ok by exact L.
    refine (conj _ (conj _ _)).
    + split; [discriminate | lia].
    + split; [intros _; exact L | intros _; eexists; reflexivity].
    + intros out H. injection H as <-. unfold serialized_chunk.
      split; [reflexivity |].
      rewrite !length_app, !be32_length. lia.
  - rewrite png_chunk_Raise by exact L.
    refine (conj _ (conj _ _)).
    + split; [intros _; exact L | reflexivity].
    + split; [intros (out & H); discriminate H | lia].
    + intros out H. discriminate H.
Qed.

Lemma no_pixels_returns_nonpos (w h : Z) (f : Z -> Z -> result rgba)
    (g : Z -> Z -> rgba) :
  w <= 0 \/ h <= 0 -> returns_on w h f g.
Proof. intros H x y Hx Hy. lia. Qed.

Lemma empty_grid_ok_nonpos (w h : Z) (g : Z -> Z -> rgba) :
  w <= 0 \/ h <= 0 -> grid_ok w h g = true.
Proof. intro H. apply grid_ok_spec. intros x y Hx Hy. lia. Qed.

(** X1. When the pixel function returns on the whole grid, the outcome of
    [make_png] is decided in this order: a channel outside [0, 255] anywhere on
    the grid gives [ValueError], whatever the dimensions; otherwise a width,
    height or compressed length outside [[0, 2^32)] gives [struct.error];
    otherwise the stream is returned. *)
Theorem make_png_outcome (compress : list byte -> list byte) (w h : Z)
    (f : Z -> Z -> result rgba) (g : Z -> Z -> rgba) :
  returns_on w h f g ->
  make_png compress w h f =
  if negb (grid_ok w h g) then Raise ValueError
  else if (0 <=? w) && (w <? 2 ^ 32) && (0 <=? h) && (h <? 2 ^ 32)
          && (Z.of_nat (length (compress (scanline_buffer w h g))) <? 2 ^ 32)
       then Ok (png_stream compress w h g)
       else Raise StructError.
Proof.
  intro Hf.
  destruct (grid_ok w h g) eqn:Hg; cbn [negb];
    [| apply (make_png_bad_channel compress w h f g Hf Hg)].
  destruct (Z.leb_spec 0 w); cbn [andb];
    [| apply (make_png_bad_dimension compress w h f g Hf Hg); lia].
  destruct (Z.ltb_spec w (2 ^ 32)); cbn [andb];
    [| apply (make_png_bad_dimension compress w h f g Hf Hg); lia].
  destruct (Z.leb_spec 0 h); cbn [andb];
    [| apply (make_png_bad_dimension compress w h f g Hf Hg); lia].
  destruct (Z.ltb_spec h (2 ^ 32)); cbn [andb];
    [| apply (make_png_bad_dimension compress w h f g Hf Hg); lia].
  destruct (Z.ltb_spec
              (Z.of_nat (length (compress (scanline_buffer w h g)))) (2 ^ 32)).
  - apply (make_png_Ok compress w h f g Hf Hg); lia.
  - apply (make_png_long_payload compress w h f g Hf Hg); lia.
Qed.

Lemma make_png_outcome_witness :
  make_png zlib_store 2 1 overflowing_fn =
  if negb (grid_ok 2 1 (value_at overflowing_fn)) then Raise ValueError
  else if (0 <=? 2) && (2 <? 2 ^ 32) && (0 <=? 1) && (1 <? 2 ^ 32)
          && (Z.of_nat (length (zlib_store
                (scanline_buffer 2 1 (value_at overflowing_fn)))) <? 2 ^ 32)
       then Ok (png_stream zlib_store 2 1 (value_at overflowing_fn))
       else Raise StructError.
Proof.
  apply (make_png_outcome zlib_store 2 1 overflowing_fn
           (value_at overflowing_fn)).
  intros x y _ _. unfold value_at, overflowing_fn.
  destruct (x =? 0); reflexivity.
Defined.

(** X2. A negative width or height makes [make_png] raise [struct.error]
    whatever the pixel function is, one that always raises included: no pixel
    is sampled, since [range] of a negative number is empty, and the header
    does not pack. *)
Theorem negative_dimension_raises (compress : list byte -> list byte)
    (w h : Z) (f : Z -> Z -> result rgba) :
  w < 0 \/ h < 0 ->
  (exists raw, build_raw w h f = Ok raw /\
               raw = repeat x00 (Z.to_nat h)) /\
  make_png compress w h f = Raise StructError.
Proof.
  intro Hneg.
  pose (g := fun _ _ : Z => (0, 0, 0, 0)).
  assert (returns_on w h f g) as Hf
    by (apply no_pixels_returns_nonpos; lia).
  assert (grid_ok w h g = true) as Hg
    by (apply empty_grid_ok_nonpos; lia).
  split.
  - exists (scanline_buffer w h g). split.
    + rewrite (build_raw_eq w h f g Hf), Hg. reflexivity.
    + unfold scanline_buffer, scanline.
      destruct Hneg as [Hw | Hh].
      * rewrite (range_nonpos w) by lia. cbn [flat_map].
        rewrite (flat_map_singleton x00).
        unfold range. rewrite length_map, length_seq. reflexivity.
      * rewrite (range_nonpos h) by lia.
        replace (Z.to_nat h) with 0%nat by lia. reflexivity.
  - apply (make_png_bad_dimension compress w h f g Hf Hg). lia.
Qed.

Lemma negative_dimension_raises_witness :
  (exists raw, build_raw (-1) 5 (fun _ _ => Raise OverflowError) = Ok raw /\
               raw = repeat x00 (Z.to_nat 5)) /\
  make_png zlib_store (-1) 5 (fun _ _ => Raise OverflowError)
  = Raise StructError.
Proof.
  apply (negative_dimension_raises zlib_store (-1) 5
           (fun _ _ => Raise OverflowError)).
  left. lia.
Defined.

(** ** Where the parts of a returned stream lie *)

Lemma serialized_chunk_length (name data : list byte) :
  length (serialized_chunk name data) = (8 + length name + length data)%nat.
Proof.
  unfold serialized_chunk. rewrite !length_app, !be32_length. lia.
Qed.

(** X3. A stream that [make_png] returns is 57 bytes longer than the
    compressed buffer: the signature at offset 0, the 25-byte IHDR chunk at
    offset 8, the IDAT chunk at offset 33 with the compressed length in its
    first four bytes, and the constant 12-byte IEND chunk
    00 00 00 00 49 45 4E 44 AE 42 60 82 at the end. *)
Theorem stream_layout (compress : list byte -> list byte) (w h : Z)
    (f : Z -> Z -> result rgba) (out : list byte) :
  make_png compress w h f = Ok out ->
  exists raw,
    build_raw w h f = Ok raw /\
    length out = (57 + length (compress raw))%nat /\
    firstn 8 out = PNG_SIGNATURE /\
    firstn 25 (skipn 8 out) = serialized_chunk IHDR (header_fields w h) /\
    be_value (firstn 4 (skipn 33 out)) = Z.of_nat (length (compress raw)) /\
    firstn (length (compress raw)) (skipn 41 out) = compress raw /\
    skipn (45 + length (compress raw)) out =
      [x00; x00; x00; x00; x49; x45; x4e; x44; xae; x42; x60; x82].
Proof.
  intro H.
  destruct (make_png_parts compress w h f out H)
    as (raw & Hraw & Hw & Hh & L & ->).
  exists raw. split; [exact Hraw |].
  set (c1 := serialized_chunk IHDR (header_fields w h)).
  set (idat := compress raw) in *.
  assert (length c1 = 25%nat) as L1 by reflexivity.
  assert (skipn 8 (stream_of (header_fields w h) idat)
          = c1 ++ serialized_chunk IDAT idat ++ serialized_chunk IEND [])
    as S8 by (apply (skipn_exact PNG_SIGNATURE); reflexivity).
  assert (skipn 33 (stream_of (header_fields w h) idat)
          = serialized_chunk IDAT idat ++ serialized_chunk IEND []) as S33.
  { change 33%nat with (25 + 8)%nat. rewrite <- skipn_skipn, S8.
    apply skipn_exact. exact L1. }
  assert (skipn 41 (stream_of (header_fields w h) idat)
          = idat ++ be32 (crc32 (IDAT ++ idat)) ++ serialized_chunk IEND [])
    as S41.
  { change 41%nat with (8 + 33)%nat. rewrite <- skipn_skipn, S33.
    unfold serialized_chunk at 1.
    change (be32 (Z.of_nat (length idat)) ++ IDAT ++ idat
            ++ be32 (crc32 (IDAT ++ idat)))
      with ((be32 (Z.of_nat (length idat)) ++ IDAT)
            ++ idat ++ be32 (crc32 (IDAT ++ idat))).
    rewrite <- !app_assoc.
    change (be32 (Z.of_nat (length idat)) ++ IDAT ++ idat
            ++ be32 (crc32 (IDAT ++ idat)) ++ serialized_chunk IEND [])
      with ((be32 (Z.of_nat (length idat)) ++ IDAT)
            ++ idat ++ be32 (crc32 (IDAT ++ idat))
            ++ serialized_chunk IEND []).
    apply skipn_exact. reflexivity. }
  refine (conj _ (conj _ (conj _ (conj _ (conj _ _))))).
  - unfold stream_of. rewrite !length_app, !serialized_chunk_length.
    fold idat. rewrite header_fields_length.
    cbn [length PNG_SIGNATURE IHDR IDAT IEND]. lia.
  - apply (firstn_exact PNG_SIGNATURE). reflexivity.
  - rewrite S8. apply firstn_exact. exact L1.
  - rewrite S33. unfold serialized_chunk at 1.
    rewrite <- !app_assoc.
    rewrite (firstn_exact (be32 _)) by apply be32_length.
    apply be_value_be32. lia.
  - rewrite S41. apply firstn_exact. reflexivity.
  - replace (45 + length idat)%nat with (4 + (length idat + 41))%nat by lia.
    rewrite <- !skipn_skipn, S41.
    rewrite (skipn_exact idat) by reflexivity.
    rewrite (skipn_exact (be32 _)) by apply be32_length.
    vm_compute. reflexivity.
Qed.

Lemma stream_layout_witness :
  exists raw,
    build_raw 2 1 sample_fn = Ok raw /\
    length (png_stream zlib_store 2 1 sample_pixels)
      = (57 + length (zlib_store raw))%nat /\
    firstn 8 (png_stream zlib_store 2 1 sample_pixels) = PNG_SIGNATURE /\
    firstn 25 (skipn 8 (png_stream zlib_store 2 1 sample_pixels))
      = serialized_chunk IHDR (header_fields 2 1) /\
    be_value (firstn 4 (skipn 33 (png_stream zlib_store 2 1 sample_pixels)))
      = Z.of_nat (length (zlib_store raw)) /\
    firstn (length (zlib_store raw))
           (skipn 41 (png_stream zlib_store 2 1 sample_pixels))
      = zlib_store raw /\
    skipn (45 + length (zlib_store raw))
          (png_stream zlib_store 2 1 sample_pixels) =
      [x00; x00; x00; x00; x49; x45; x4e; x44; xae; x42; x60; x82].
Proof.
  apply (stream_layout zlib_store 2 1 sample_fn).
  vm_compute. reflexivity.
Defined.

(** ** The first failing pixel decides *)

Lemma for_each_app {A S : Type} (xs ys : list A) (body : S -> A -> result S)
    (s : S) :
  for_each (xs ++ ys) body s = s' <- for_each xs body s ;; for_each ys body s'.
Proof.
  revert s. induction xs as [| x xs IH]; intro s; cbn [app for_each bind].
  - reflexivity.
  - destruct (body s x) as [s1 | e]; cbn [bind]; [apply IH | reflexivity].
Qed.

Lemma for_each_raises_at {A S : Type} (xs tl : list A) (x : A)
    (body : S -> A -> result S) (s s1 : S) (e : exn) :
  for_each xs body s = Ok s1 -> body s1 x = Raise e ->
  for_each (xs ++ x :: tl) body s = Raise e.
Proof.
  intros H1 H2. rewrite for_each_app, H1. cbn [bind for_each].
  rewrite H2. reflexivity.
Qed.

(** X4. The loops sample the grid row by row, left to right, and stop at the
    first failure: when every pixel before [(x, y)] in this order is returned
    with channels in [0, 255], an exception of the pixel function at [(x, y)]
    is the exception of [make_png], and a channel outside [0, 255] at
    [(x, y)] gives [ValueError]. Nothing at or after [(x, y)] matters. *)
Theorem first_failure_decides (compress : list byte -> list byte) (w h : Z)
    (f : Z -> Z -> result rgba) (g : Z -> Z -> rgba) (x y : Z) :
  0 <= x < w -> 0 <= y < h ->
  (forall x' y', 0 <= x' < w -> 0 <= y' < h ->
     y' < y \/ (y' = y /\ x' < x) ->
     f x' y' = Ok (g x' y') /\ channels_ok (g x' y') = true) ->
  (forall e, f x y = Raise e -> make_png compress w h f = Raise e) /\
  (forall q, f x y = Ok q -> channels_ok q = false ->
             make_png compress w h f = Raise ValueError).
Proof.
  intros Hx Hy Hbefore.
  destruct (range_split h y Hy) as (tly & Ey).
  destruct (range_split w x Hx) as (tlx & Ex).
  (* the rows above [y] *)
  assert (for_each (range y) (append_row w f) []
          = Ok (flat_map (scanline w g) (range y))) as Hrows.
  { rewrite (rows_loop_eq w y f g).
    - replace (forallb _ (range y)) with true; [reflexivity |].
      symmetry. apply forallb_forall. intros y' Hy'. apply in_range in Hy'.
      apply forallb_forall. intros x' Hx'. apply in_range in Hx'.
      apply Hbefore; lia.
    - intros x' y' Hx' Hy'. apply Hbefore; lia.
    - intros y' Hy'. apply in_range. exact Hy'. }
  (* the pixels of row [y] left of [x] *)
  assert (forall raw,
          for_each (range x) (append_pixel f y) raw
          = Ok (raw ++ flat_map (fun x' => pixel_bytes (g x' y)) (range x)))
    as Hpix.
  { intro raw. rewrite (row_loop_eq f g).
    - replace (forallb _ (range x)) with true; [reflexivity |].
      symmetry. apply forallb_forall. intros x' Hx'. apply in_range in Hx'.
      apply Hbefore; lia.
    - intros x' Hx'. apply in_range in Hx'. apply Hbefore; lia. }
  assert (forall e,
          (forall raw, append_pixel f y raw x = Raise e) ->
          make_png compress w h f = Raise e) as Hfail.
  { intros e He.
    apply make_png_raises_with_build_raw. unfold build_raw. rewrite Ey.
    apply (for_each_raises_at _ _ _ _ _ _ _ Hrows).
    unfold append_row. rewrite Ex.
    apply (for_each_raises_at _ _ _ _ _ _ _ (Hpix _)).
    apply He. }
  split.
  - intros e He. apply Hfail. intro raw.
    unfold append_pixel. rewrite He. reflexivity.
  - intros q Hq Hbad. apply Hfail. intro raw.
    rewrite (append_pixel_eq f q y x raw Hq), Hbad. reflexivity.
Qed.

Lemma first_failure_decides_witness :
  (forall e, sample_fn_partial 2 0 = Raise e ->
             make_png zlib_store 3 1 sample_fn_partial = Raise e) /\
  (forall q, sample_fn_partial 2 0 = Ok q -> channels_ok q = false ->
             make_png zlib_store 3 1 sample_fn_partial = Raise ValueError).
Proof.
  apply (first_failure_decides zlib_store 3 1 sample_fn_partial
           sample_pixels 2 0).
  - lia.
  - lia.
  - intros x' y' Hx' Hy' Hb. split.
    + unfold sample_fn_partial.
      destruct (Z.leb_spec 0 x'); [| lia].
      destruct (Z.ltb_spec x' 2); [| lia].
      destruct (Z.eqb_spec y' 0); [| lia].
      reflexivity.
    + apply sample_pixels_ok.
Defined.

(** ** The CRC field guards the payload *)

Lemma testbit_above (c n : Z) : 0 <= c < 2 ^ n -> 0 <= n -> Z.testbit c n = false.
Proof.
  intros R Hn. destruct (Z.eq_dec c 0) as [-> | NZ]; [apply Z.bits_0 |].
  apply Z.bits_above_log2; [lia |].
  apply Z.log2_lt_pow2; lia.
Qed.

Lemma lxor_cancel_r (a b x : Z) : Z.lxor a x = Z.lxor b x -> a = b.
Proof.
  intro H. apply (f_equal (fun z => Z.lxor z x)) in H.
  rewrite !Z.lxor_assoc, Z.lxor_nilpotent, !Z.lxor_0_r in H. exact H.
Qed.

Lemma lxor_cancel_l (c x y : Z) : Z.lxor c x = Z.lxor c y -> x = y.
Proof.
  intro H. rewrite (Z.lxor_comm c x), (Z.lxor_comm c y) in H.
  apply (lxor_cancel_r x y c H).
Qed.

Lemma crc32_unshift_shift (c : Z) :
  0 <= c < 2 ^ 32 -> crc32_unshift (crc32_shift c) = c.
Proof.
  intro R. unfold crc32_unshift, crc32_shift.
  pose proof (Z.div2_odd c) as D.
  rewrite Z.div2_spec, <- Z.bit0_odd in D.
  assert (Z.testbit (Z.shiftr c 1) 31 = false) as T.
  { rewrite Z.shiftr_spec by lia. apply testbit_above; lia. }
  destruct (Z.testbit c 0) eqn:B; cbn [Z.b2z] in D.
  - rewrite Z.lxor_spec, T. change (Z.testbit 0xEDB88320 31) with true.
    cbn [xorb].
    rewrite Z.lxor_assoc, Z.lxor_nilpotent, Z.lxor_0_r. lia.
  - rewrite T. lia.
Qed.

Lemma crc32_shift_inj (a b : Z) :
  0 <= a < 2 ^ 32 -> 0 <= b < 2 ^ 32 ->
  crc32_shift a = crc32_shift b -> a = b.
Proof.
  intros Ra Rb H.
  rewrite <- (crc32_unshift_shift a Ra), <- (crc32_unshift_shift b Rb), H.
  reflexivity.
Qed.

Lemma crc32_shifts_range (n : nat) (c : Z) :
  0 <= c < 2 ^ 32 -> 0 <= Nat.iter n crc32_shift c < 2 ^ 32.
Proof.
  intro R. induction n as [| n IH]; cbn [Nat.iter nat_rect].
  - exact R.
  - apply crc32_shift_range. exact IH.
Qed.

Lemma crc32_shifts_inj (n : nat) (a b : Z) :
  0 <= a < 2 ^ 32 -> 0 <= b < 2 ^ 32 ->
  Nat.iter n crc32_shift a = Nat.iter n crc32_shift b -> a = b.
Proof.
  intros Ra Rb. induction n as [| n IH]; cbn [Nat.iter nat_rect]; intro H.
  - exact H.
  - apply IH. apply crc32_shift_inj; [apply crc32_shifts_range; assumption .. | exact H].
Qed.

Lemma byte_lxor_range (c : Z) (b : byte) :
  0 <= c < 2 ^ 32 -> 0 <= Z.lxor c (Z_of_byte b) < 2 ^ 32.
Proof.
  intro R. apply lxor_range; [lia | exact R |].
  pose proof (Z_of_byte_range b). lia.
Qed.

(** One step of the register is injective in the register ... *)
Lemma crc32_update_inj_state (a b : Z) (x : byte) :
  0 <= a < 2 ^ 32 -> 0 <= b < 2 ^ 32 ->
  crc32_update a x = crc32_update b x -> a = b.
Proof.
  intros Ra Rb H. unfold crc32_update in H.
  apply crc32_shifts_inj in H; try (apply byte_lxor_range; assumption).
  apply (lxor_cancel_r a b _ H).
Qed.

(** ... and in the byte. *)
Lemma crc32_update_inj_byte (c : Z) (x y : byte) :
  0 <= c < 2 ^ 32 -> crc32_update c x = crc32_update c y -> x = y.
Proof.
  intros R H. unfold crc32_update in H.
  apply crc32_shifts_inj in H; try (apply byte_lxor_range; assumption).
  apply Z_of_byte_inj. apply (lxor_cancel_l c _ _ H).
Qed.

Lemma crc32_fold_range (data : list byte) (c : Z) :
  0 <= c < 2 ^ 32 -> 0 <= fold_left crc32_update data c < 2 ^ 32.
Proof.
  revert c. induction data as [| x data IH]; intros c R; cbn [fold_left].
  - exact R.
  - apply IH. apply crc32_update_range. exact R.
Qed.

Lemma crc32_fold_inj (data : list byte) (a b : Z) :
  0 <= a < 2 ^ 32 -> 0 <= b < 2 ^ 32 ->
  fold_left crc32_update data a = fold_left crc32_update data b -> a = b.
Proof.
  revert a b. induction data as [| x data IH]; intros a b Ra Rb H;
    cbn [fold_left] in H.
  - exact H.
  - apply IH in H; try (apply crc32_update_range; assumption).
    apply (crc32_update_inj_state a b x Ra Rb H).
Qed.

(** Two messages that differ in one byte have different CRC-32. *)
Lemma crc32_one_byte (pre suf : list byte) (x y : byte) :
  crc32 (pre ++ x :: suf) = crc32 (pre ++ y :: suf) -> x = y.
Proof.
  unfold crc32. intro H. apply lxor_cancel_r in H.
  rewrite !fold_left_app in H. cbn [fold_left] in H.
  assert (0 <= fold_left crc32_update pre 0xFFFFFFFF < 2 ^ 32) as R
    by (apply crc32_fold_range; lia).
  apply crc32_fold_inj in H; try (apply crc32_update_range; exact R).
  apply (crc32_update_inj_byte _ x y R H).
Qed.

(** X5. The CRC field guards every byte of the payload: when [png_chunk]
    returns a chunk, reading it back gives the type and the payload, and the
    chunk with any single payload byte replaced by a different one is
    rejected, because CRC-32 separates any two messages that differ in one
    byte. *)
Theorem crc_rejects_corrupted_payload (name p s rest c : list byte)
    (b b' : byte) :
  length name = 4%nat -> b <> b' ->
  png_chunk name (p ++ b :: s) = Ok c ->
  crc32 (name ++ p ++ b' :: s) <> crc32 (name ++ p ++ b :: s) /\
  read_chunk (c ++ rest) = Some (name, p ++ b :: s, rest) /\
  read_chunk (firstn (8 + length p) c ++ b' :: skipn (9 + length p) c ++ rest)
  = None.
Proof.
  intros Hn Hb H.
  apply png_chunk_serialized in H. destruct H as [L ->].
  assert (crc32 (name ++ p ++ b' :: s) <> crc32 (name ++ p ++ b :: s)) as Hcrc.
  { intro E. rewrite !app_assoc in E. apply crc32_one_byte in E.
    apply Hb. symmetry. exact E. }
  refine (conj Hcrc (conj _ _)).
  - apply read_serialized_chunk; assumption.
  - set (crc_b := be32 (crc32 (name ++ p ++ b :: s))).
    assert (length (p ++ b' :: s) = length (p ++ b :: s)) as El
      by (rewrite !length_app; reflexivity).
    set (len_b := be32 (Z.of_nat (length (p ++ b :: s)))) in *.
    assert (serialized_chunk name (p ++ b :: s)
            = (len_b ++ name ++ p) ++ b :: s ++ crc_b) as E1.
    { unfold serialized_chunk. fold len_b. fold crc_b.
      rewrite <- !app_assoc. reflexivity. }
    assert (serialized_chunk name (p ++ b :: s)
            = ((len_b ++ name ++ p) ++ [b]) ++ s ++ crc_b) as E2.
    { rewrite E1. rewrite <- !app_assoc. reflexivity. }
    assert (length (len_b ++ name ++ p) = (8 + length p)%nat) as L8.
    { rewrite !length_app. unfold len_b. rewrite be32_length, Hn. lia. }
    rewrite E1 at 1. rewrite firstn_exact by exact L8.
    rewrite E2. rewrite skipn_exact
      by (rewrite length_app, L8; cbn [length]; lia).
    replace ((len_b ++ name ++ p) ++ b' :: (s ++ crc_b) ++ rest)
      with (len_b ++ name ++ (p ++ b' :: s) ++ crc_b ++ rest)
      by (rewrite <- !app_assoc; reflexivity).
    destruct (serialized_skips len_b name (p ++ b' :: s) crc_b rest
                (be32_length _) Hn (be32_length _))
      as (F4 & N4 & D & C4 & R & Ls).
    assert (be_value len_b = Z.of_nat (length (p ++ b' :: s))) as Bl.
    { unfold len_b. rewrite be_value_be32 by lia. rewrite El. reflexivity. }
    unfold read_chunk. rewrite F4, Bl, Nat2Z.id, Ls.
    destruct (Z.leb_spec (12 + Z.of_nat (length (p ++ b' :: s)))
                (Z.of_nat (12 + length (p ++ b' :: s) + length rest)));
      [| lia].
    rewrite N4, D, C4. unfold crc_b.
    rewrite be_value_be32 by apply crc32_range.
    destruct (Z.eqb_spec (crc32 (name ++ p ++ b :: s))
                (crc32 (name ++ p ++ b' :: s))) as [E | _];
      [| reflexivity].
    exfalso. apply Hcrc. symmetry. exact E.
Qed.

Lemma crc_rejects_corrupted_payload_witness :
  crc32 (IDAT ++ [x01] ++ x03 :: [x04]) <> crc32 (IDAT ++ [x01] ++ x02 :: [x04]) /\
  read_chunk (serialized_chunk IDAT [x01; x02; x04] ++ [x0a])
  = Some (IDAT, [x01] ++ x02 :: [x04], [x0a]) /\
  read_chunk
    (firstn (8 + length [x01]) (serialized_chunk IDAT [x01; x02; x04])
     ++ x03 :: skipn (9 + length [x01]) (serialized_chunk IDAT [x01; x02; x04])
     ++ [x0a])
  = None.
Proof.
  apply (crc_rejects_corrupted_payload IDAT [x01] [x04] [x0a]
           (serialized_chunk IDAT [x01; x02; x04]) x02 x03).
  - reflexivity.
  - discriminate.
  - vm_compute. reflexivity.
Defined.

(** ** Different images give different streams *)

Section Injective.

Variable compress : list byte -> list byte.
Variable decompress : list byte -> option (list byte).
Hypothesis decompress_compress : forall d, decompress (compress d) = Some d.

(** X6. [make_png] loses nothing: if two calls return the same bytes, they
    were given the same width and the same height, and their pixel functions
    returned the same quadruple at every coordinate of the grid. *)
Theorem make_png_injective (w h w' h' : Z) (f f' : Z -> Z -> result rgba)
    (g g' : Z -> Z -> rgba) (out : list byte) :
  returns_on w h f g -> returns_on w' h' f' g' ->
  make_png compress w h f = Ok out ->
  make_png compress w' h' f' = Ok out ->
  w = w' /\ h = h' /\
  forall x y, 0 <= x < w -> 0 <= y < h -> g x y = g' x y.
Proof.
  intros Hf Hf' H H'.
  destruct (decode_make_png compress decompress decompress_compress
              w h f g out Hf H) as (img & D & W & Hh & _ & P).
  destruct (decode_make_png compress decompress decompress_compress
              w' h' f' g' out Hf' H') as (img' & D' & W' & Hh' & _ & P').
  rewrite D in D'. injection D' as <-.
  assert (w = w') as Ew by congruence.
  assert (h = h') as Eh by congruence.
  refine (conj Ew (conj Eh _)).
  intros x y Hx Hy.
  pose proof (P x y Hx Hy) as E.
  rewrite (P' x y) in E by lia.
  injection E as E. symmetry. exact E.
Qed.

End Injective.

Lemma sample_fn_partial_returns : returns_on 2 1 sample_fn_partial sample_pixels.
Proof.
  intros x y Hx Hy. unfold sample_fn_partial.
  destruct (Z.leb_spec 0 x); [| lia].
  destruct (Z.ltb_spec x 2); [| lia].
  destruct (Z.eqb_spec y 0); [| lia].
  reflexivity.
Qed.

Lemma sample_partial_stream_Ok :
  make_png zlib_store 2 1 sample_fn_partial
  = Ok (png_stream zlib_store 2 1 sample_pixels).
Proof. vm_compute. reflexivity. Qed.

Lemma make_png_injective_witness :
  2 = 2 /\ 1 = 1 /\
  forall x y, 0 <= x < 2 -> 0 <= y < 1 -> sample_pixels x y = sample_pixels x y.
Proof.
  apply (make_png_injective zlib_store zlib_unstore zlib_unstore_store
           2 1 2 1 sample_fn sample_fn_partial sample_pixels sample_pixels
           (png_stream zlib_store 2 1 sample_pixels)).
  - apply sample_fn_returns.
  - apply sample_fn_partial_returns.
  - apply sample_stream_Ok.
  - apply sample_partial_stream_Ok.
Defined.

(** * The icons *)

Lemma rgba_eqb_eq (p q : rgba) : rgba_eqb p q = true -> p = q.
Proof.
  destruct p as [[[r g] b] a], q as [[[r' g'] b'] a']. unfold rgba_eqb.
  rewrite !andb_true_iff, !Z.eqb_eq. intros [[[-> ->] ->] ->]. reflexivity.
Qed.

Lemma returns_eqb_eq (c : result rgba) (q : rgba) :
  returns_eqb c q = true -> c = Ok q.
Proof.
  destruct c as [p | e]; cbn [returns_eqb]; intro H; [| discriminate H].
  apply rgba_eqb_eq in H. rewrite H. reflexivity.
Qed.

Lemma on_icon_spec (P : Z -> Z -> bool) :
  on_icon P = true ->
  forall x y, 0 <= x < SIZE -> 0 <= y < SIZE -> P x y = true.
Proof.
  unfold on_icon. intros H x y Hx Hy.
  rewrite forallb_forall in H.
  specialize (H y (proj2 (in_range SIZE y) Hy)).
  rewrite forallb_forall in H.
  apply (H x (proj2 (in_range SIZE x) Hx)).
Qed.

Lemma recording_agrees :
  on_icon (fun x y =>
    returns_eqb (make_recording_pixel x y) (recording_reference x y)) = true.
Proof. vm_compute. reflexivity. Qed.

Lemma recording_band :
  on_icon (fun x y =>
    let n := (x - 24) * (x - 24) + (y - 24) * (y - 24) in
    negb ((380 <? n) && (n <=? 420))
    || ((26 <=? alpha_exact n) && (alpha_exact n <=? 217))) = true.
Proof. vm_compute. reflexivity. Qed.

(** [alpha_exact n] is the floor of [(20.5 - sqrt n) * 255]: it is the
    integer [a] with [a <= (20.5 - sqrt n) * 255 < a + 1], that is, with
    [10453 - 2 a < 510 sqrt n <= 10455 - 2 a]. *)
Lemma alpha_exact_floor (n : Z) :
  0 < n -> alpha_exact n <= 5226 ->
  (10453 - 2 * alpha_exact n) * (10453 - 2 * alpha_exact n) < 260100 * n
    <= (10455 - 2 * alpha_exact n) * (10455 - 2 * alpha_exact n).
Proof.
  intros Hn Ha. unfold alpha_exact in *.
  pose proof (Z.sqrt_up_spec (260100 * n) ltac:(lia)) as S.
  set (s := Z.sqrt_up (260100 * n)) in *.
  pose proof (Z.div_mod (10455 - s) 2 ltac:(lia)) as D.
  pose proof (Z.mod_pos_bound (10455 - s) 2 ltac:(lia)) as M.
  set (a := (10455 - s) / 2) in *.
  assert (0 < s) as Hs by (unfold s; apply Z.sqrt_up_pos; lia).
  rewrite <- Z.sub_1_r in S.
  assert (10455 - 2 * a = s \/ 10455 - 2 * a = s + 1) as [E | E] by lia.
  - rewrite E. replace (10453 - 2 * a) with (s - 2) by lia.
    split; [| lia]. nia.
  - rewrite E. replace (10453 - 2 * a) with (s - 1) by lia.
    split; [lia | nia].
Qed.

(** X8. On the 48 by 48 icon the floating-point [circle_aa] of
    [make_recording] computes exactly what real arithmetic gives: with
    [n = (x - 24)^2 + (y - 24)^2], opaque red where [n <= 380], transparent
    where [n > 420], and in between red with alpha the floor of
    [(20.5 - sqrt n) * 255], a value [a] from 26 to 217 with
    [10453 - 2 a < 510 sqrt n <= 10455 - 2 a]. *)
Theorem recording_icon_exact (x y : Z) :
  0 <= x < 48 -> 0 <= y < 48 ->
  let n := (x - 24) * (x - 24) + (y - 24) * (y - 24) in
  make_recording_pixel x y =
    Ok (if n <=? 380 then (220, 50, 50, 255)
        else if n <=? 420 then (220, 50, 50, alpha_exact n)
        else (0, 0, 0, 0)) /\
  (380 < n <= 420 ->
   26 <= alpha_exact n <= 217 /\
   (10453 - 2 * alpha_exact n) * (10453 - 2 * alpha_exact n) < 260100 * n
     <= (10455 - 2 * alpha_exact n) * (10455 - 2 * alpha_exact n)).
Proof.
  intros Hx Hy n. split.
  - apply returns_eqb_eq.
    apply (on_icon_spec _ recording_agrees x y Hx Hy).
  - intro Hn.
    assert (26 <= alpha_exact n <= 217) as B.
    { pose proof (on_icon_spec _ recording_band x y Hx Hy) as B.
      cbv beta zeta in B. fold n in B.
      rewrite (proj2 (Z.ltb_lt 380 n)) in B by lia.
      rewrite (proj2 (Z.leb_le n 420)) in B by lia.
      cbn [andb negb orb] in B.
      rewrite andb_true_iff, !Z.leb_le in B. exact B. }
    split; [exact B |].
    apply (alpha_exact_floor n); lia.
Qed.

Lemma recording_icon_exact_witness :
  let n := (5 - 24) * (5 - 24) + (18 - 24) * (18 - 24) in
  make_recording_pixel 5 18 =
    Ok (if n <=? 380 then (220, 50, 50, 255)
        else if n <=? 420 then (220, 50, 50, alpha_exact n)
        else (0, 0, 0, 0)) /\
  (380 < n <= 420 ->
   26 <= alpha_exact n <= 217 /\
   (10453 - 2 * alpha_exact n) * (10453 - 2 * alpha_exact n) < 260100 * n
     <= (10455 - 2 * alpha_exact n) * (10455 - 2 * alpha_exact n)).
Proof.
  apply (recording_icon_exact 5 18); lia.
Defined.

Lemma paused_agrees :
  on_icon (fun x y =>
    returns_eqb (make_paused_pixel x y) (paused_reference x y)) = true.
Proof. vm_compute. reflexivity. Qed.

(** X9. On the 48 by 48 icon [make_paused] draws exactly two rounded bars:
    a pixel is opaque yellow when its squared integer distance to the
    rectangle with corner (11, 12), or to the one with corner (28, 12), both 9
    wide and 24 high, is at most 9, and transparent otherwise. The
    floating-point square root changes no pixel, and there is no partial
    alpha. *)
Theorem paused_icon_shape (x y : Z) :
  0 <= x < 48 -> 0 <= y < 48 ->
  make_paused_pixel x y =
    Ok (if near_rectangle x y 11 12 9 24 3 || near_rectangle x y 28 12 9 24 3
        then (230, 190, 40, 255)
        else (0, 0, 0, 0)).
Proof.
  intros Hx Hy. apply returns_eqb_eq.
  apply (on_icon_spec _ paused_agrees x y Hx Hy).
Qed.

Lemma paused_icon_shape_witness :
  make_paused_pixel 9 10 =
    Ok (if near_rectangle 9 10 11 12 9 24 3 || near_rectangle 9 10 28 12 9 24 3
        then (230, 190, 40, 255)
        else (0, 0, 0, 0)).
Proof.
  apply (paused_icon_shape 9 10); lia.
Defined.

Lemma idle_agrees :
  on_icon (fun x y =>
    returns_eqb (make_idle_pixel x y) (idle_reference x y)) = true.
Proof. vm_compute. reflexivity. Qed.

(** X10. On the 48 by 48 icon [make_idle] draws exactly the microphone that
    its tests describe when they are read over the integers: the column
    [x = 24] for [11 <= y <= 29], the rectangle [17..31] by [18..22], the two
    discs of squared radius 49 about (24, 18) and (24, 22), the post
    [22.5 <= x <= 25.5], [29 <= y <= 37], the base [16..32] by [36..39], and
    the upper half of the ring [9.5 <= dist <= 12.5] about (24, 29); every
    pixel is opaque gray or transparent. *)
Theorem idle_icon_shape (x y : Z) :
  0 <= x < 48 -> 0 <= y < 48 ->
  make_idle_pixel x y = Ok (idle_reference x y) /\
  (idle_reference x y = (130, 130, 140, 255) \/
   idle_reference x y = (0, 0, 0, 0)).
Proof.
  intros Hx Hy. split.
  - apply returns_eqb_eq.
    apply (on_icon_spec _ idle_agrees x y Hx Hy).
  - unfold idle_reference. cbv zeta.
    match goal with |- context [if ?c then _ else _] => destruct c end;
      [left | right]; reflexivity.
Qed.

Lemma idle_icon_shape_witness :
  make_idle_pixel 24 11 = Ok (idle_reference 24 11) /\
  (idle_reference 24 11 = (130, 130, 140, 255) \/
   idle_reference 24 11 = (0, 0, 0, 0)).
Proof.
  apply (idle_icon_shape 24 11); lia.
Defined.

Lemma icons_mirror_x :
  on_icon (fun x y =>
    (x =? 0)
    || (same_pixel make_idle_pixel x y (48 - x) y
        && same_pixel make_recording_pixel x y (48 - x) y
        && same_pixel make_paused_pixel x y (48 - x) y)) = true.
Proof. vm_compute. reflexivity. Qed.

Lemma icons_mirror_y :
  on_icon (fun x y =>
    (y =? 0)
    || (same_pixel make_recording_pixel x y x (48 - y)
        && same_pixel make_paused_pixel x y x (48 - y))) = true.
Proof. vm_compute. reflexivity. Qed.

Lemma same_pixel_eq (f : Z -> Z -> result rgba) (x y mx my : Z) :
  same_pixel f x y mx my = true -> f mx my = f x y.
Proof.
  unfold same_pixel. destruct (f x y) as [q | e]; intro H; [| discriminate H].
  apply returns_eqb_eq. exact H.
Qed.

(** X11. The three icons are symmetric about the vertical line [x = 24]:
    each sampler gives the same pixel at [(48 - x, y)] as at [(x, y)]; the
    recording and paused icons are also symmetric about the horizontal line
    [y = 24]. Column 0 and row 0 have no mirror image on the icon. *)
Theorem icons_symmetric (x y : Z) :
  0 <= x < 48 -> 0 <= y < 48 ->
  (1 <= x ->
   make_idle_pixel (48 - x) y = make_idle_pixel x y /\
   make_recording_pixel (48 - x) y = make_recording_pixel x y /\
   make_paused_pixel (48 - x) y = make_paused_pixel x y) /\
  (1 <= y ->
   make_recording_pixel x (48 - y) = make_recording_pixel x y /\
   make_paused_pixel x (48 - y) = make_paused_pixel x y).
Proof.
  intros Hx Hy. split.
  - intro H1.
    pose proof (on_icon_spec _ icons_mirror_x x y Hx Hy) as M.
    cbv beta in M.
    rewrite (proj2 (Z.eqb_neq x 0)) in M by lia. cbn [orb] in M.
    rewrite !andb_true_iff in M. destruct M as [[M1 M2] M3].
    repeat split; apply same_pixel_eq; assumption.
  - intro H1.
    pose proof (on_icon_spec _ icons_mirror_y x y Hx Hy) as M.
    cbv beta in M.
    rewrite (proj2 (Z.eqb_neq y 0)) in M by lia. cbn [orb] in M.
    rewrite !andb_true_iff in M. destruct M as [M1 M2].
    repeat split; apply same_pixel_eq; assumption.
Qed.

Lemma icons_symmetric_witness :
  (1 <= 5 ->
   make_idle_pixel (48 - 5) 18 = make_idle_pixel 5 18 /\
   make_recording_pixel (48 - 5) 18 = make_recording_pixel 5 18 /\
   make_paused_pixel (48 - 5) 18 = make_paused_pixel 5 18) /\
  (1 <= 18 ->
   make_recording_pixel 5 (48 - 18) = make_recording_pixel 5 18 /\
   make_paused_pixel 5 (48 - 18) = make_paused_pixel 5 18).
Proof.
  apply (icons_symmetric 5 18); lia.
Defined.

(** ** Square corners lie inside rounded ones *)

(** X12. [rounded_rect] accepts every point of the rectangle itself, for
    any radius [r >= 0] and any integers, and rejects it for a negative
    radius: both distances are 0 there. *)
Theorem rounded_rect_contains_rectangle (x y rx ry rw rh r : Z) :
  rx <= x <= rx + rw -> ry <= y <= ry + rh ->
  rounded_rect x y rx ry rw rh r = Ok (0 <=? r).
Proof.
  intros Hx Hy. unfold rounded_rect.
  replace (Z.max (Z.max (rx - x) 0) (x - (rx + rw))) with 0 by lia.
  replace (Z.max (Z.max (ry - y) 0) (y - (ry + rh))) with 0 by lia.
  change (float_of_int (0 * 0 + 0 * 0)) with (Ok zero). cbn [bind].
  change (math_sqrt zero) with (Ok zero). cbn [bind].
  unfold float_le_int, float_cmp_int.
  change (Prim2SF zero) with (S754_zero false).
  unfold Z.leb. destruct (0 ?= r); reflexivity.
Qed.

Lemma rounded_rect_contains_rectangle_witness :
  rounded_rect 11 12 11 12 9 24 3 = Ok (0 <=? 3).
Proof.
  apply (rounded_rect_contains_rectangle 11 12 11 12 9 24 3); lia.
Defined.

(** * The generators and the script *)

Section Generators.

Variable compress : list byte -> list byte.

Lemma icon_outcome (f : Z -> Z -> result rgba) :
  sampler_ok f = true ->
  make_png compress SIZE SIZE f =
  if Z.of_nat (length (compress (scanline_buffer SIZE SIZE (value_at f))))
     <? 2 ^ 32
  then Ok (png_stream compress SIZE SIZE (value_at f))
  else Raise StructError.
Proof.
  intro H.
  pose proof (sampler_returns f H) as Hf.
  pose proof (sampler_grid_ok f H) as Hg.
  destruct (Z.ltb_spec
              (Z.of_nat (length (compress
                 (scanline_buffer SIZE SIZE (value_at f))))) (2 ^ 32))
    as [L | L].
  - apply (make_png_Ok compress SIZE SIZE f _ Hf Hg);
      [unfold SIZE; lia | unfold SIZE; lia | exact L].
  - apply (make_png_long_payload compress SIZE SIZE f _ Hf Hg);
      [unfold SIZE; lia | unfold SIZE; lia | exact L].
Qed.

(** X13. Each icon generator returns its 48 by 48 stream, and the only
    exception it can raise is [struct.error], exactly when the compressor
    returns [2^32] bytes or more for its 9264-byte buffer. *)
Theorem icon_generators_outcome :
  Forall (fun '(make, f) =>
            Z.of_nat (length (scanline_buffer SIZE SIZE (value_at f))) = 9264 /\
            make =
            if Z.of_nat (length (compress
                 (scanline_buffer SIZE SIZE (value_at f)))) <? 2 ^ 32
            then Ok (png_stream compress SIZE SIZE (value_at f))
            else Raise StructError)
    [(make_idle compress, make_idle_pixel);
     (make_recording compress, make_recording_pixel);
     (make_paused compress, make_paused_pixel)].
Proof.
  repeat apply Forall_cons; [| | | apply Forall_nil].
  - split; [rewrite scanline_buffer_length; unfold SIZE; lia |].
    rewrite make_idle_eq. apply icon_outcome, idle_sampler_ok.
  - split; [rewrite scanline_buffer_length; unfold SIZE; lia |].
    rewrite make_recording_eq. apply icon_outcome, recording_sampler_ok.
  - split; [rewrite scanline_buffer_length; unfold SIZE; lia |].
    rewrite make_paused_eq. apply icon_outcome, paused_sampler_ok.
Qed.

End Generators.

(** ** Running the script *)

Section RunScript.

Variable compress : list byte -> list byte.
Variable path_of : String.string -> String.string.
Variable can_open : String.string -> bool.

Lemma write_icons_spec (items : list (String.string * list byte)) :
  forall trace,
    write_icons path_of can_open items trace =
    (trace ++ flat_map (item_events path_of) (opened path_of can_open items),
     option_map OSError (first_refused path_of can_open items)).
Proof.
  induction items as [| [name data] items IH]; intro trace;
    cbn [write_icons write_icon opened first_refused flat_map option_map].
  - rewrite app_nil_r. reflexivity.
  - destruct (can_open (path_of name)).
    + rewrite IH. cbn [flat_map item_events]. rewrite <- app_assoc.
      reflexivity.
    + cbn [flat_map option_map]. rewrite app_nil_r. reflexivity.
Qed.

Lemma icons_eq :
  icons compress =
  if fits compress make_idle_pixel && fits compress make_recording_pixel
     && fits compress make_paused_pixel
  then Ok (icon_items compress)
  else Raise StructError.
Proof.
  unfold icons.
  rewrite make_idle_eq, make_recording_eq, make_paused_eq.
  rewrite (icon_outcome compress _ idle_sampler_ok).
  rewrite (icon_outcome compress _ recording_sampler_ok).
  rewrite (icon_outcome compress _ paused_sampler_ok).
  fold (fits compress make_idle_pixel) (fits compress make_recording_pixel)
       (fits compress make_paused_pixel).
  fold (icon_stream compress make_idle_pixel)
       (icon_stream compress make_recording_pixel)
       (icon_stream compress make_paused_pixel).
  destruct (fits compress make_idle_pixel); cbn [bind andb]; [| reflexivity].
  destruct (fits compress make_recording_pixel); cbn [bind andb]; [| reflexivity].
  destruct (fits compress make_paused_pixel); cbn [bind andb]; reflexivity.
Qed.


(** X15. When the three compressed buffers fit, the script writes
    [idle.png], [recording.png] and [paused.png] in this order, each with
    the stream of its generator, and prints one line with the name and the
    size after each file. It stops at the first file that cannot be opened,
    with [OSError] for its path, keeping the files written and the lines
    printed before; it prints [Done.] only after the third file. *)
Theorem script_trace :
  fits compress make_idle_pixel && fits compress make_recording_pixel
    && fits compress make_paused_pixel = true ->
  main compress path_of can_open =
    (flat_map (item_events path_of) (opened path_of can_open (icon_items compress))
     ++ match first_refused path_of can_open (icon_items compress) with
        | None => [Printed "Done."%string]
        | Some _ => []
        end,
     option_map OSError (first_refused path_of can_open (icon_items compress))) /\
  (can_open (path_of "idle.png"%string) = true ->
   can_open (path_of "recording.png"%string) = true ->
   can_open (path_of "paused.png"%string) = true ->
   main compress path_of can_open =
     ([Wrote (path_of "idle.png"%string) (icon_stream compress make_idle_pixel);
       Printed (created_line "idle.png"%string (icon_stream compress make_idle_pixel));
       Wrote (path_of "recording.png"%string)
             (icon_stream compress make_recording_pixel);
       Printed (created_line "recording.png"%string
                  (icon_stream compress make_recording_pixel));
       Wrote (path_of "paused.png"%string) (icon_stream compress make_paused_pixel);
       Printed (created_line "paused.png"%string
                  (icon_stream compress make_paused_pixel));
       Printed "Done."%string],
      None)).
Proof.
  intro H.
  assert (main compress path_of can_open =
          (flat_map (item_events path_of) (opened path_of can_open (icon_items compress))
           ++ match first_refused path_of can_open (icon_items compress) with
              | None => [Printed "Done."%string]
              | Some _ => []
              end,
           option_map OSError (first_refused path_of can_open (icon_items compress))))
    as E.
  { unfold main. rewrite icons_eq, H. unfold write_all.
    rewrite write_icons_spec. cbn [app].
    destruct (first_refused path_of can_open (icon_items compress));
      cbn [option_map]; [rewrite app_nil_r |]; reflexivity. }
  split; [exact E |].
  intros O1 O2 O3. rewrite E.
  unfold icon_items. cbn [opened first_refused].
  rewrite O1, O2, O3. reflexivity.
Qed.

End RunScript.

Lemma stored_icons_fit :
  fits zlib_store make_idle_pixel && fits zlib_store make_recording_pixel
    && fits zlib_store make_paused_pixel = true.
Proof. vm_compute. reflexivity. Qed.

Lemma script_trace_witness :
  main zlib_store (String.append "/icons/"%string) (fun _ => true) =
    (flat_map (item_events (String.append "/icons/"%string))
       (opened (String.append "/icons/"%string) (fun _ => true)
          (icon_items zlib_store))
     ++ match first_refused (String.append "/icons/"%string) (fun _ => true)
                (icon_items zlib_store) with
        | None => [Printed "Done."%string]
        | Some _ => []
        end,
     option_map OSError
       (first_refused (String.append "/icons/"%string) (fun _ => true)
          (icon_items zlib_store))) /\
  ((fun _ : String.string => true)
     (String.append "/icons/"%string "idle.png"%string) = true ->
   (fun _ : String.string => true)
     (String.append "/icons/"%string "recording.png"%string) = true ->
   (fun _ : String.string => true)
     (String.append "/icons/"%string "paused.png"%string) = true ->
   main zlib_store (String.append "/icons/"%string) (fun _ => true) =
     ([Wrote (String.append "/icons/"%string "idle.png"%string)
             (icon_stream zlib_store make_idle_pixel);
       Printed (created_line "idle.png"%string
                  (icon_stream zlib_store make_idle_pixel));
       Wrote (String.append "/icons/"%string "recording.png"%string)
             (icon_stream zlib_store make_recording_pixel);
       Printed (created_line "recording.png"%string
                  (icon_stream zlib_store make_recording_pixel));
       Wrote (String.append "/icons/"%string "paused.png"%string)
             (icon_stream zlib_store make_paused_pixel);
       Printed (created_line "paused.png"%string
                  (icon_stream zlib_store make_paused_pixel));
       Printed "Done."%string],
      None)).
Proof.
  apply (script_trace zlib_store (String.append "/icons/"%string)
           (fun _ => true)).
  apply stored_icons_fit.
Defined.



